(** * ZeroThetaDashboard: execution-to-trade reconciliation

    A shallow embedding of [data_collector.collect_daily_results] and of the
    profit re-pairing of [streamlit-dashboard.load_data], with the properties
    the specification states about them.

    Modelling choices.
    - Prices are Python [float]s, i.e. IEEE-754 binary64 numbers.  They are
      Rocq's primitive [float]s, which are the same numbers with the same
      rounding, so [+], [-], [*], [abs] and [<] compute here what they compute
      in Python.
    - [sum(...)] is the left-to-right sum starting from 0.  (Since Python 3.12
      [sum] compensates rounding errors; on up to two summands, and whenever
      no addition rounds, both give the same number.)
    - Timestamps are timezone-aware [datetime]s; sorting and dictionary
      look-up only see the instant, which is an integer here.  [astimezone]
      and [strftime] depend on the local timezone and are parameters.
    - Dictionaries keep insertion order, and the code iterates over them: they
      are association lists.
    - The ledger file is the list of its lines, each line the list of its
      cells; a file that does not exist is [None].
    - [DataFrame.sort_values] runs pandas' default sort, quicksort, which is
      not stable.  The dashboard's sort is therefore a parameter, known only
      to return the rows of a group ordered by [entry_time]; what is proved
      about the pairing holds for every such sort, whatever order it gives to
      rows of equal entry time. *)

From Stdlib Require Import ZArith List String Ascii Bool Lia.
From Stdlib Require Import Permutation Sorted.
From Stdlib Require Import Floats DecimalString.
Import ListNotations.

Open Scope string_scope.
Open Scope list_scope.
Open Scope Z_scope.

(** ** Python primitives used by the code *)

Module Py.

(** [sum(xs)] over floats. *)
Definition sum (xs : list float) : float :=
  fold_left PrimFloat.add xs 0%float.

(** [a > b] on floats. *)
Definition gt (a b : float) : bool := PrimFloat.ltb b a.

(** Truth value of a float: [bool(x)] is [x != 0.0]. *)
Definition truthy (x : float) : bool := negb (PrimFloat.eqb x 0%float).

(** [int(x)]: truncation toward zero; raises on infinities and NaN
    ([None]). *)
Definition int (x : float) : option Z :=
  match Prim2SF x with
  | S754_zero _ => Some 0
  | S754_finite s m e =>
      let a := Z.shiftl (Zpos m) e in
      Some (if s then - a else a)
  | S754_infinity _ => None
  | S754_nan => None
  end.

(** [str(n)] for an integer. *)
Definition str (n : Z) : string := NilZero.string_of_int (Z.to_int n).

(** Rounding of the non-negative rational [num / den] to the nearest
    integer, ties to even. *)
Definition round_half_even (num den : Z) : Z :=
  let q := num / den in
  let r := num mod den in
  match 2 * r ?= den with
  | Lt => q
  | Gt => q + 1
  | Eq => if Z.even q then q else q + 1
  end.

(** The magnitude [m * 2^e], in hundredths, correctly rounded. *)
Definition hundredths (m : positive) (e : Z) : Z :=
  if 0 <=? e then Zpos m * 2 ^ e * 100
  else round_half_even (Zpos m * 100) (2 ^ (- e)).

Definition sign_str (s : bool) : string := if s then "-" else "".

Definition digit (d : Z) : string :=
  String (ascii_of_N (48 + Z.to_N d)) EmptyString.

(** Neither an infinity nor NaN. *)
Definition is_finite (x : float) : bool :=
  match Prim2SF x with
  | S754_zero _ | S754_finite _ _ _ => true
  | S754_infinity _ | S754_nan => false
  end.

(** [f'{x:.2f}']: fixed notation with two decimals, correctly rounded from
    the exact binary value; the sign is kept when the digits round to
    zero. *)
Definition format_2f (x : float) : string :=
  match Prim2SF x with
  | S754_nan => "nan"
  | S754_infinity s => (sign_str s ++ "inf")%string
  | S754_zero s => (sign_str s ++ "0.00")%string
  | S754_finite s m e =>
      let n := hundredths m e in
      (sign_str s ++ str (n / 100) ++ "."
         ++ digit ((n mod 100) / 10) ++ digit (n mod 10))%string
  end.

End Py.

(** ** The fills reported by the execution source *)

Record Contract := mkContract {
  symbol : string;
  strike : option float;      (* [None]: no [strike] attribute *)
  right : option string       (* [None]: no [right] attribute *)
}.

Record Execution := mkExecution {
  permId : Z;
  time : Z;
  side : string;              (* "BOT" is BUY, "SLD" is SELL *)
  price : float
}.

Record Fill := mkFill {
  contract : Contract;
  execution : Execution
}.

Definition fill_permId (e : Fill) : Z := permId (execution e).
Definition fill_time (e : Fill) : Z := time (execution e).
Definition fill_side (e : Fill) : string := side (execution e).
Definition fill_price (e : Fill) : float := price (execution e).

(** ** Dictionaries of lists, and sorting *)

Section Dict.

Context {K V : Type} (eqb : K -> K -> bool).

(** [if k not in d: d[k] = []] followed by [d[k].append(v)]. *)
Fixpoint dict_append (k : K) (v : V) (d : list (K * list V))
  : list (K * list V) :=
  match d with
  | [] => [(k, [v])]
  | (k', l) :: d' =>
      if eqb k' k then (k', l ++ [v]) :: d'
      else (k', l) :: dict_append k v d'
  end.

(** The loop that files every element under its key. *)
Definition group_by (key : V -> K) (l : list V) : list (K * list V) :=
  fold_left (fun d v => dict_append (key v) v d) l [].

(** Every list of the dictionary holds values of its key only, and no list
    is empty. *)
Definition keyed (key : V -> K) (d : list (K * list V)) : Prop :=
  Forall (fun kv => snd kv <> [] /\ Forall (fun v => key v = fst kv) (snd kv))
    d.

(** The dictionary holds, under each key, the elements of that key seen so
    far, in the order in which they came. *)
Definition files (key : V -> K) (seen : list V) (d : list (K * list V))
  : Prop :=
  NoDup (map fst d)
  /\ (forall k vs, In (k, vs) d ->
        vs = filter (fun v => eqb k (key v)) seen /\ vs <> [])
  /\ (forall v, In v seen -> In (key v) (map fst d)).

End Dict.

Section Sort.

Context {A : Type} (leb : A -> A -> bool).

Fixpoint insert_sorted (x : A) (l : list A) : list A :=
  match l with
  | [] => [x]
  | y :: l' => if leb x y then x :: y :: l' else y :: insert_sorted x l'
  end.

(** A stable sort: equal elements keep their order. *)
Definition stable_sort (l : list A) : list A :=
  fold_right insert_sorted [] l.

End Sort.

(** ** Grouping the fills *)

(** [trades_by_perm_id]. *)
Definition trades_by_perm_id (executions : list Fill)
  : list (Z * list Fill) :=
  group_by Z.eqb fill_permId executions.

(** [execs.sort(key=lambda x: x.execution.time)]. *)
Definition sort_by_time (execs : list Fill) : list Fill :=
  stable_sort (fun a b => fill_time a <=? fill_time b) execs.

(** [times], filled from the sorted [execs]. *)
Definition times (execs : list Fill) : list (Z * list Fill) :=
  group_by Z.eqb fill_time (sort_by_time execs).

(** [time_groups = list(times.values())]. *)
Definition time_groups (execs : list Fill) : list (list Fill) :=
  map snd (times execs).

(** ** Opening bucket: combo and legs, entry price and action *)

(** [e.execution.price < 0] and [e.execution.price > 0]. *)
Definition negative_price (e : Fill) : bool :=
  PrimFloat.ltb (fill_price e) 0%float.

Definition positive_price (e : Fill) : bool :=
  Py.gt (fill_price e) 0%float.

(** One iteration of the loop over [opening_execs]; the state is
    [(combo_exec, leg_execs)]. *)
Definition classify_step (st : option Fill * list Fill) (e : Fill)
  : option Fill * list Fill :=
  let (combo_exec, leg_execs) := st in
  if negative_price e then (Some e, leg_execs)
  else (combo_exec, leg_execs ++ [e]).

Definition classify_opening (opening_execs : list Fill)
  : option Fill * list Fill :=
  fold_left classify_step opening_execs (None, []).

Definition combo_exec (opening_execs : list Fill) : option Fill :=
  fst (classify_opening opening_execs).

Definition leg_execs (opening_execs : list Fill) : list Fill :=
  snd (classify_opening opening_execs).

Definition has_side (s : string) (e : Fill) : bool :=
  String.eqb (fill_side e) s.

Definition credit_received (legs : list Fill) : float :=
  Py.sum (map fill_price (filter (has_side "SLD") legs)).

Definition debit_paid (legs : list Fill) : float :=
  Py.sum (map fill_price (filter (has_side "BOT") legs)).

(** What the branch on [combo_exec] binds. *)
Record Entry := mkEntry {
  entry_contract : Contract;
  entry_execution : Execution;
  entry_price : float;
  entry_action : string
}.

(** [None] is the [IndexError] of [opening_execs[0]] on an empty bucket. *)
Definition entry_of (opening_execs : list Fill) : option Entry :=
  match combo_exec opening_execs with
  | Some c =>
      Some (mkEntry (contract c) (execution c)
              (PrimFloat.abs (fill_price c)) (fill_side c))
  | None =>
      match opening_execs with
      | [] => None
      | first_exec :: _ =>
          let legs := leg_execs opening_execs in
          let credit := credit_received legs in
          let debit := debit_paid legs in
          Some (mkEntry (contract first_exec) (execution first_exec)
                  (PrimFloat.abs (credit - debit)%float)
                  (if Py.gt credit debit then "BOT" else "SLD"))
      end
  end.

(** ** Strikes and trade type *)

(** The [strike] attributes of the fills that have one. *)
Definition strike_attrs (opening_execs : list Fill) : list float :=
  flat_map (fun e => match strike (contract e) with
                     | Some k => [k]
                     | None => []
                     end) opening_execs.

(** [strikes.append(int(e.contract.strike))] for the fills that have the
    attribute; [None] when an [int(...)] raises. *)
Fixpoint collect_strikes (opening_execs : list Fill) : option (list Z) :=
  match opening_execs with
  | [] => Some []
  | e :: rest =>
      match strike (contract e) with
      | None => collect_strikes rest
      | Some k =>
          match Py.int k, collect_strikes rest with
          | Some n, Some ns => Some (n :: ns)
          | _, _ => None
          end
      end
  end.

(** [strikes.sort()]. *)
Definition sort_strikes (strikes : list Z) : list Z :=
  stable_sort Z.leb strikes.

Definition render_strikes (strikes : list Z) : string :=
  match strikes with
  | s0 :: s1 :: _ => (Py.str s0 ++ "/" ++ Py.str s1)%string
  | [s0] => Py.str s0
  | [] => "unknown"
  end.

Definition strikes_str (opening_execs : list Fill) : option string :=
  match collect_strikes opening_execs with
  | Some strikes => Some (render_strikes (sort_strikes strikes))
  | None => None
  end.

Fixpoint collect_rights (opening_execs : list Fill) : list string :=
  match opening_execs with
  | [] => []
  | e :: rest =>
      match right (contract e) with
      | Some r => r :: collect_rights rest
      | None => collect_rights rest
      end
  end.

Definition trade_type (opening_execs : list Fill) : string :=
  let rights := collect_rights opening_execs in
  if existsb (String.eqb "P") rights then "Bull Put"
  else if existsb (String.eqb "C") rights then "Bear Call"
  else "unknown".

(** ** Closing bucket: exit price and action *)

Definition is_closing_combo (e : Fill) : bool :=
  has_side "SLD" e && negative_price e.

(** The loop with [break]: the first fill that is SLD with a negative price. *)
Definition closing_combo (closing_execs : list Fill) : option Fill :=
  find is_closing_combo closing_execs.

Definition closing_credit (closing_execs : list Fill) : float :=
  Py.sum (map fill_price
            (filter (fun e => has_side "SLD" e && positive_price e)
               closing_execs)).

Definition closing_debit (closing_execs : list Fill) : float :=
  Py.sum (map fill_price
            (filter (fun e => has_side "BOT" e && positive_price e)
               closing_execs)).

(** [(exit_price, exit_action)] of a closing bucket. *)
Definition exit_of (closing_execs : list Fill) : float * string :=
  match closing_combo closing_execs with
  | Some c => (PrimFloat.abs (fill_price c), "SLD")
  | None =>
      let credit := closing_credit closing_execs in
      let debit := closing_debit closing_execs in
      ((debit - credit)%float, if Py.gt credit debit then "SLD" else "BOT")
  end.

(** What the branch on [len(time_groups) > 1] binds; [exit_price] is [None]
    on an open trade. *)
Record Outcome := mkOutcome {
  exit_price : option float;
  exit_action : string;
  profit : float;
  status : string
}.

Definition outcome_of (entry_price : float) (groups : list (list Fill))
  : Outcome :=
  match groups with
  | _ :: closing_execs :: _ =>
      let (exit_price, exit_action) := exit_of closing_execs in
      mkOutcome (Some exit_price) exit_action
        ((entry_price - exit_price) * 100)%float "closed"
  | _ => mkOutcome None "" 0%float "open"
  end.

(** ['{exit_price:.2f}' if exit_price else '']. *)
Definition exit_price_cell (exit_price : option float) : string :=
  match exit_price with
  | Some x => if Py.truthy x then Py.format_2f x else ""
  | None => ""
  end.

(** ** One ledger row per order *)

Record Row := mkRow {
  col_date : string;
  col_trade_type : string;
  col_symbol : string;
  col_strikes : string;
  col_entry_action : string;
  col_entry_time : string;
  col_entry_price : string;
  col_exit_action : string;
  col_exit_price : string;
  col_profit : string;
  col_status : string;
  col_strategy : string
}.

Definition Line := list string.

Definition fieldnames : Line :=
  ["date"; "trade_type"; "symbol"; "strikes"; "entry_action"; "entry_time";
   "entry_price"; "exit_action"; "exit_price"; "profit"; "status"; "strategy"].

(** [writer.writerow({...})]: the cells in the order of [fieldnames]. *)
Definition row_cells (r : Row) : Line :=
  [col_date r; col_trade_type r; col_symbol r; col_strikes r;
   col_entry_action r; col_entry_time r; col_entry_price r;
   col_exit_action r; col_exit_price r; col_profit r; col_status r;
   col_strategy r].

(** The result of one iteration of the loop over the orders. *)
Inductive Step :=
| Continue            (* [continue] *)
| Raised              (* an exception leaves the loop *)
| Wrote (r : Row).    (* [writer.writerow] *)

Section Collector.

(** [t.astimezone().strftime('%Y-%m-%d %H:%M:%S')] and
    [t.astimezone().strftime('%Y-%m-%d')]. *)
Variable strftime_datetime : Z -> string.
Variable strftime_date : Z -> string.

(** The label the caller passes. *)
Variable strategy : string.

Definition make_row (opening_execs : list Fill) (en : Entry)
  (strikes : string) (o : Outcome) : Row :=
  {| col_date := strftime_date (time (entry_execution en));
     col_trade_type := trade_type opening_execs;
     col_symbol := symbol (entry_contract en);
     col_strikes := strikes;
     col_entry_action := entry_action en;
     col_entry_time := strftime_datetime (time (entry_execution en));
     col_entry_price := Py.format_2f (entry_price en);
     col_exit_action := exit_action o;
     col_exit_price := exit_price_cell (exit_price o);
     col_profit := Py.format_2f (profit o);
     col_status := status o;
     col_strategy := strategy |}.

(** The body of [for perm_id, execs in trades_by_perm_id.items()]. *)
Definition process_group (execs : list Fill) : Step :=
  match time_groups execs with
  | [] => Continue
  | (opening_execs :: _) as groups =>
      match entry_of opening_execs, strikes_str opening_execs with
      | Some en, Some strikes =>
          Wrote (make_row opening_execs en strikes
                   (outcome_of (entry_price en) groups))
      | _, _ => Raised
      end
  end.

(** The loop over the orders: the lines of the file and the count so far
    go in; the count is [None] when an exception ended the run. *)
Fixpoint write_trades (orders : list (Z * list Fill)) (csvfile : list Line)
  (trades_written : Z) : list Line * option Z :=
  match orders with
  | [] => (csvfile, Some trades_written)
  | (_, execs) :: rest =>
      match process_group execs with
      | Continue => write_trades rest csvfile trades_written
      | Raised => (csvfile, None)
      | Wrote r =>
          write_trades rest (csvfile ++ [row_cells r]) (trades_written + 1)
      end
  end.

(** [collect_daily_results]: the ledger before, the executions the source
    returns; the ledger after, and the value returned. *)
Definition collect_daily_results (ledger : option (list Line))
  (executions : list Fill) : option (list Line) * option Z :=
  match executions with
  | [] => (ledger, Some 0)
  | _ :: _ =>
      let csvfile :=
        match ledger with
        | Some lines => lines            (* [file_exists] *)
        | None => [fieldnames]           (* [writer.writeheader()] *)
        end in
      let (csvfile', n) :=
        write_trades (trades_by_perm_id executions) csvfile 0 in
      (Some csvfile', n)
  end.

(** The rows a run writes, in order, up to the first exception. *)
Fixpoint trades_of (orders : list (Z * list Fill)) : list Row :=
  match orders with
  | [] => []
  | (_, execs) :: rest =>
      match process_group execs with
      | Continue => trades_of rest
      | Raised => []
      | Wrote r => r :: trades_of rest
      end
  end.

(** Whether an exception ends the run. *)
Fixpoint raises (orders : list (Z * list Fill)) : bool :=
  match orders with
  | [] => false
  | (_, execs) :: rest =>
      match process_group execs with
      | Raised => true
      | _ => raises rest
      end
  end.

(** Runs one after the other, each on its own executions. *)
Definition runs (ledger : option (list Line)) (sessions : list (list Fill))
  : option (list Line) :=
  fold_left (fun l executions => fst (collect_daily_results l executions))
    sessions ledger.

End Collector.

(** ** The presentation layer: the re-pairing of [load_data]

    The data frame is the list of its rows, each with its index label (the
    position of the row in the file: [read_csv] numbers the rows, and
    [dropna] keeps the labels).  A missing cell (NaN, NaT) is [None]. *)

Module Dashboard.

Record LedgerRow := mkLedgerRow {
  date : option Z;
  trade_type : option string;
  symbol : option string;
  strikes : option string;
  entry_action : option string;
  entry_time : option Z;
  entry_price : float;
  profit : float
}.

Definition DataFrame := list (nat * LedgerRow).

Definition read_csv (rows : list LedgerRow) : DataFrame :=
  combine (seq 0 (List.length rows)) rows.

Definition present {T : Type} (x : option T) : bool :=
  match x with Some _ => true | None => false end.

(** [df.dropna(subset=['date'])]. *)
Definition dropna_date (df : DataFrame) : DataFrame :=
  filter (fun ir => present (date (snd ir))) df.

Definition with_profit (p : float) (r : LedgerRow) : LedgerRow :=
  {| date := date r; trade_type := trade_type r; symbol := symbol r;
     strikes := strikes r; entry_action := entry_action r;
     entry_time := entry_time r; entry_price := entry_price r;
     profit := p |}.

(** [df['profit'] = 0.0]. *)
Definition reset_profit (df : DataFrame) : DataFrame :=
  map (fun ir => (fst ir, with_profit 0%float (snd ir))) df.

(** The grouping key [(date, trade_type, symbol, strikes)]. *)
Definition Key : Type :=
  option Z * option string * option string * option string.

Definition key_of (ir : nat * LedgerRow) : Key :=
  let r := snd ir in (date r, trade_type r, symbol r, strikes r).

Definition option_eqb {T : Type} (eqb : T -> T -> bool) (x y : option T)
  : bool :=
  match x, y with
  | Some a, Some b => eqb a b
  | None, None => true
  | _, _ => false
  end.

Definition key_eqb (k1 k2 : Key) : bool :=
  let '(d1, t1, s1, x1) := k1 in
  let '(d2, t2, s2, x2) := k2 in
  option_eqb Z.eqb d1 d2 && option_eqb String.eqb t1 t2
  && option_eqb String.eqb s1 s2 && option_eqb String.eqb x1 x2.

(** [groupby] leaves out the rows with a missing key cell. *)
Definition key_complete (ir : nat * LedgerRow) : bool :=
  let r := snd ir in
  present (date r) && present (trade_type r) && present (symbol r)
  && present (strikes r).

Definition groupby (df : DataFrame) : list (Key * DataFrame) :=
  group_by key_eqb key_of (filter key_complete df).

(** The order of [entry_time], missing values last. *)
Definition entry_time_leb (a b : nat * LedgerRow) : bool :=
  match entry_time (snd a), entry_time (snd b) with
  | Some x, Some y => x <=? y
  | _, None => true
  | None, Some _ => false
  end.

(** What [group.sort_values('entry_time')] guarantees: the rows of the
    group, in the order of their entry times, missing ones last.  pandas
    sorts with its default kind, quicksort, which is not stable: the order
    it gives to rows of equal entry time is not fixed here. *)
Definition sorts_by_entry_time (sort : DataFrame -> DataFrame) : Prop :=
  forall group,
    Permutation (sort group) group
    /\ StronglySorted (fun a b => entry_time_leb a b = true) (sort group).

(** One sort of that kind: the one that leaves rows of equal entry time in
    the order of the frame. *)
Definition stable_sort_values (group : DataFrame) : DataFrame :=
  stable_sort entry_time_leb group.

(** Another one: rows of equal entry time come out in the reverse of the
    order of the frame. *)
Definition reversing_sort_values (group : DataFrame) : DataFrame :=
  stable_sort entry_time_leb (rev group).

(** Two rows tie when neither entry time is before the other: the times are
    equal, or both are missing. *)
Definition ties (a b : nat * LedgerRow) : bool :=
  entry_time_leb a b && entry_time_leb b a.

(** No two rows of the group tie, unless they have the same label. *)
Definition tie_free (group : DataFrame) : bool :=
  forallb
    (fun a =>
       forallb (fun b => implb (ties a b) (Nat.eqb (fst a) (fst b))) group)
    group.

Section Pairing.

(** [group.sort_values('entry_time')]: the sort pandas runs, of which the
    pairing uses nothing but [sorts_by_entry_time]. *)
Variable sort_values : DataFrame -> DataFrame.

Definition has_action (a : string) (ir : nat * LedgerRow) : bool :=
  match entry_action (snd ir) with
  | Some x => String.eqb x a
  | None => false
  end.

Definition bot_rows (group : DataFrame) : DataFrame :=
  filter (has_action "BOT") (sort_values group).

Definition sld_rows (group : DataFrame) : DataFrame :=
  filter (has_action "SLD") (sort_values group).

(** [df.loc[idx, 'profit'] = p]. *)
Definition loc_set_profit (idx : nat) (p : float) (df : DataFrame)
  : DataFrame :=
  map (fun ir =>
         if Nat.eqb (fst ir) idx then (fst ir, with_profit p (snd ir))
         else ir) df.

(** [(bot_price - sld_price) * 100]. *)
Definition pair_profit (bot sld : nat * LedgerRow) : float :=
  ((entry_price (snd bot) - entry_price (snd sld)) * 100)%float.

(** The body of [for i in range(num_pairs)], on the i-th BOT row and the
    i-th SLD row. *)
Definition pair_rows (df : DataFrame)
  (pair : (nat * LedgerRow) * (nat * LedgerRow)) : DataFrame :=
  let (bot, sld) := pair in
  let p := pair_profit bot sld in
  loc_set_profit (fst sld) p (loc_set_profit (fst bot) p df).

(** The body of [for group_key, group in trade_groups]; [combine] stops at
    [min(len(bot_rows), len(sld_rows))] pairs. *)
Definition pair_group (df : DataFrame) (group : DataFrame) : DataFrame :=
  fold_left pair_rows (combine (bot_rows group) (sld_rows group)) df.

Definition pair_groups (groups : list (Key * DataFrame)) (df : DataFrame)
  : DataFrame :=
  fold_left (fun df g => pair_group df (snd g)) groups df.

(** The frame before the pairing. *)
Definition prepare (rows : list LedgerRow) : DataFrame :=
  reset_profit (dropna_date (read_csv rows)).

(** [load_data], from the rows [read_csv] parsed.  (pandas visits the
    groups in the order of their keys, here they come in the order of
    their first rows; the theorem about the pairing holds for every
    order.) *)
Definition load_data (rows : list LedgerRow) : DataFrame :=
  let df := prepare rows in
  pair_groups (groupby df) df.

(** The assignments [df.loc[idx, 'profit'] = p] of the pairing, in the order
    in which the loops make them, as (label, profit). *)
Definition pair_assignments
  (pair : (nat * LedgerRow) * (nat * LedgerRow)) : list (nat * float) :=
  let (bot, sld) := pair in
  [(fst bot, pair_profit bot sld); (fst sld, pair_profit bot sld)].

Definition assignments (groups : list (Key * DataFrame))
  : list (nat * float) :=
  flat_map (fun g =>
              flat_map pair_assignments
                (combine (bot_rows (snd g)) (sld_rows (snd g))))
    groups.

Definition assign_all (l : list (nat * float)) (df : DataFrame) : DataFrame :=
  fold_left (fun df a => loc_set_profit (fst a) (snd a) df) l df.

End Pairing.

(** A row of the sample ledger: one day, one spread. *)
Definition sample_row (action : string) (t : Z) (price profit : float)
  : LedgerRow :=
  {| date := Some 20240105; trade_type := Some "Bull Put";
     symbol := Some "SPX"; strikes := Some "90/95";
     entry_action := Some action; entry_time := Some t;
     entry_price := price; profit := profit |}.

Definition sample_ledger : list LedgerRow :=
  [ sample_row "SLD" 30 1 7; sample_row "BOT" 20 3.5 8;
    sample_row "BOT" 10 2 9; sample_row "SLD" 5 0.5 3;
    sample_row "SLD" 40 1 1 ].

(** A ledger whose two BOT rows have the same entry time. *)
Definition tied_ledger : list LedgerRow :=
  [ sample_row "BOT" 10 3 0; sample_row "BOT" 10 5 0;
    sample_row "SLD" 20 1 0 ].

End Dashboard.

(** [a0, b0, a1, b1, ...], as long as both lists last. *)
Fixpoint interleave {X : Type} (l1 l2 : list X) : list X :=
  match l1, l2 with
  | a :: l1', b :: l2' => a :: b :: interleave l1' l2'
  | _, _ => []
  end.

(** Every label occurs in [l'] at most as often as in [l]. *)
Definition le_count (l' l : list nat) : Prop :=
  forall x, (count_occ Nat.eq_dec l' x <= count_occ Nat.eq_dec l x)%nat.

(** ** The per-execution collector: [collect_daily_results_simple] *)

Section SimpleCollector.

Variable strftime_datetime : Z -> string.
Variable strftime_date : Z -> string.
Variable strategy : string.

(** [str(int(contract.strike)) if hasattr(contract, 'strike') else '']; [None]
    when [int(...)] raises. *)
Definition simple_strike (c : Contract) : option string :=
  match strike c with
  | Some k =>
      match Py.int k with
      | Some n => Some (Py.str n)
      | None => None
      end
  | None => Some ""
  end.

(** The row of one execution; [is_entry] is [execution.side == 'SLD']. *)
Definition simple_row (e : Fill) : option Row :=
  let exec_time := strftime_datetime (fill_time e) in
  let trade_date := strftime_date (fill_time e) in
  let is_entry := has_side "SLD" e in
  match simple_strike (contract e) with
  | None => None
  | Some strike =>
      Some {| col_date := trade_date;
              col_trade_type := "spread_leg";
              col_symbol := symbol (contract e);
              col_strikes := strike;
              col_entry_action := if is_entry then fill_side e else "";
              col_entry_time := if is_entry then exec_time else "";
              col_entry_price :=
                if is_entry then Py.format_2f (fill_price e) else "";
              col_exit_action := if negb is_entry then fill_side e else "";
              col_exit_price :=
                if negb is_entry then Py.format_2f (fill_price e) else "";
              col_profit := "";
              col_status := "executed";
              col_strategy := strategy |}
  end.

(** The loop over the executions: the lines of the file, and whether the
    loop ran to its end ([false] when an exception left it). *)
Fixpoint write_executions (executions : list Fill) (csvfile : list Line)
  : list Line * bool :=
  match executions with
  | [] => (csvfile, true)
  | e :: rest =>
      match simple_row e with
      | None => (csvfile, false)
      | Some r => write_executions rest (csvfile ++ [row_cells r])
      end
  end.

(** The rows the loop writes, in order, up to the first exception. *)
Fixpoint simple_rows (executions : list Fill) : list Row :=
  match executions with
  | [] => []
  | e :: rest =>
      match simple_row e with
      | None => []
      | Some r => r :: simple_rows rest
      end
  end.

(** [collect_daily_results_simple]: the ledger before and the executions
    the source returns; the ledger after, and the value returned. *)
Definition collect_daily_results_simple (ledger : option (list Line))
  (executions : list Fill) : option (list Line) * option Z :=
  match executions with
  | [] => (ledger, Some 0)
  | _ :: _ =>
      let csvfile :=
        match ledger with
        | Some lines => lines
        | None => [fieldnames]
        end in
      let (csvfile', completed) := write_executions executions csvfile in
      (Some csvfile',
       if completed then Some (Z.of_nat (List.length executions)) else None)
  end.

End SimpleCollector.

(** One run of either collector. *)
Inductive Collector := Grouped | Simple.

Definition run_collector (strftime_datetime strftime_date : Z -> string)
  (strategy : string) (ledger : option (list Line))
  (session : Collector * list Fill) : option (list Line) :=
  match fst session with
  | Grouped =>
      fst (collect_daily_results strftime_datetime strftime_date strategy
             ledger (snd session))
  | Simple =>
      fst (collect_daily_results_simple strftime_datetime strftime_date
             strategy ledger (snd session))
  end.

(** Runs of the two collectors, one after the other, on one ledger. *)
Definition mixed_runs (strftime_datetime strftime_date : Z -> string)
  (strategy : string) (ledger : option (list Line))
  (sessions : list (Collector * list Fill)) : option (list Line) :=
  fold_left (run_collector strftime_datetime strftime_date strategy)
    sessions ledger.

(** ** Sample data for the examples *)

Definition spx_put (k : float) : Contract :=
  mkContract "SPX" (Some k) (Some "P").

Definition spx_bag : Contract := mkContract "SPX" None None.

Definition fill_at (c : Contract) (perm t : Z) (s : string) (p : float)
  : Fill :=
  mkFill c (mkExecution perm t s p).

(** Three fills of order 7 at time 100 (two legs and the combo), and one
    fill of order 8. *)
Definition open_session : list Fill :=
  [ fill_at (spx_put 95) 7 100 "SLD" 5;
    fill_at (spx_put 90) 7 100 "BOT" 1.5;
    fill_at spx_bag 8 150 "SLD" 2;
    fill_at spx_bag 7 100 "BOT" (-3.5) ].

(** An order opened at time 100 by a combo fill, closed at time 200 by two
    legs, with one more fill at time 300. *)
Definition closed_order : list Fill :=
  [ fill_at (spx_put 95) 7 200 "BOT" 1;
    fill_at spx_bag 7 100 "BOT" (-3.5);
    fill_at (spx_put 90) 7 300 "SLD" 4;
    fill_at (spx_put 90) 7 200 "SLD" 0.25 ].

(** A session in which the only fill of order 8 has an infinite strike. *)
Definition bad_strike_session : list Fill :=
  [ fill_at (spx_put 95) 7 100 "SLD" 5;
    fill_at (spx_put infinity) 8 150 "SLD" 2;
    fill_at (spx_put 90) 9 160 "BOT" 1.5 ].

(** * Properties *)

(** ** Floats *)

Lemma SFcompare_Eq_sym (a b : spec_float) :
  SFcompare a b = Some Eq -> SFcompare b a = Some Eq.
Proof.
  destruct a as [sa|sa| |sa ma ea], b as [sb|sb| |sb mb eb]; simpl;
    try discriminate; try reflexivity;
    try (destruct sa; discriminate); try (destruct sb; discriminate);
    try (destruct sa, sb; (discriminate || reflexivity)).
  destruct sa, sb; try discriminate;
    destruct (ea ?= eb) eqn:Ee; try discriminate;
    apply Z.compare_eq in Ee; subst eb; rewrite Z.compare_refl;
    intros H; injection H as H.
  - destruct (Pos.compare_cont Eq ma mb) eqn:Em; try discriminate.
    apply Pos.compare_eq in Em. subst mb.
    change (Pos.compare_cont Eq ma ma) with (ma ?= ma)%positive.
    rewrite Pos.compare_refl. reflexivity.
  - apply Pos.compare_eq in H. subst mb.
    change (Pos.compare_cont Eq ma ma) with (ma ?= ma)%positive.
    rewrite Pos.compare_refl. reflexivity.
Qed.

(** [a == b] excludes [b < a]. *)
Lemma float_eqb_not_gt (a b : float) :
  PrimFloat.eqb a b = true -> PrimFloat.ltb b a = false.
Proof.
  rewrite eqb_spec, ltb_spec. unfold SFeqb, SFltb.
  destruct (SFcompare (Prim2SF a) (Prim2SF b)) as [[| |]|] eqn:E;
    try discriminate.
  intros _. rewrite (SFcompare_Eq_sym _ _ E). reflexivity.
Qed.

(** A float below zero is a negative number or minus infinity, and is not
    zero. *)
Lemma float_negative (x : float) :
  PrimFloat.ltb x 0%float = true ->
  PrimFloat.eqb x 0%float = false
  /\ (Prim2SF x = S754_infinity true
      \/ exists m e, Prim2SF x = S754_finite true m e).
Proof.
  rewrite eqb_spec, ltb_spec. unfold SFeqb, SFltb.
  change (Prim2SF 0%float) with (S754_zero false).
  destruct (Prim2SF x) as [s|s| |s m e]; simpl; try discriminate.
  - destruct s; try discriminate. intros _. split; [reflexivity|].
    left. reflexivity.
  - destruct s; try discriminate. intros _. split; [reflexivity|].
    right. exists m, e. reflexivity.
Qed.

(** ** Sorting *)

Section SortFacts.

Context {A : Type} (leb : A -> A -> bool).

Lemma insert_sorted_perm (x : A) (l : list A) :
  Permutation (insert_sorted leb x l) (x :: l).
Proof.
  induction l as [|y l IH]; simpl.
  - apply Permutation_refl.
  - destruct (leb x y).
    + apply Permutation_refl.
    + apply perm_trans with (y :: x :: l).
      * apply perm_skip, IH.
      * apply perm_swap.
Qed.

Lemma stable_sort_perm (l : list A) : Permutation (stable_sort leb l) l.
Proof.
  induction l as [|x l IH]; simpl.
  - apply perm_nil.
  - apply perm_trans with (x :: stable_sort leb l).
    + apply insert_sorted_perm.
    + apply perm_skip, IH.
Qed.

Lemma stable_sort_In (x : A) (l : list A) :
  In x (stable_sort leb l) <-> In x l.
Proof.
  split; apply Permutation_in.
  - apply stable_sort_perm.
  - apply Permutation_sym, stable_sort_perm.
Qed.

Hypothesis leb_total : forall x y, leb x y = true \/ leb y x = true.
Hypothesis leb_trans :
  forall x y z, leb x y = true -> leb y z = true -> leb x z = true.

Lemma insert_sorted_sorted (x : A) (l : list A) :
  StronglySorted (fun a b => leb a b = true) l ->
  StronglySorted (fun a b => leb a b = true) (insert_sorted leb x l).
Proof.
  induction 1 as [|y l Hl IH Hy]; simpl.
  - constructor; constructor.
  - destruct (leb x y) eqn:Hxy.
    + constructor.
      * constructor; assumption.
      * constructor; [exact Hxy|].
        eapply Forall_impl; [|exact Hy].
        intros z Hz. eapply leb_trans; eassumption.
    + constructor; [exact IH|].
      assert (Hyx : leb y x = true) by (destruct (leb_total x y); congruence).
      apply Forall_forall. intros z Hz.
      apply (Permutation_in _ (insert_sorted_perm x l)) in Hz.
      destruct Hz as [<-|Hz]; [exact Hyx|].
      rewrite Forall_forall in Hy. apply Hy, Hz.
Qed.

Lemma stable_sort_sorted (l : list A) :
  StronglySorted (fun a b => leb a b = true) (stable_sort leb l).
Proof.
  induction l as [|x l IH]; simpl.
  - constructor.
  - apply insert_sorted_sorted, IH.
Qed.

End SortFacts.

(** ** Dictionaries of lists *)

Section DictFacts.

Context {K V : Type} (eqb : K -> K -> bool).
Hypothesis eqb_eq : forall a b, eqb a b = true <-> a = b.

Lemma eqb_refl (a : K) : eqb a a = true.
Proof. apply eqb_eq. reflexivity. Qed.

Lemma dict_append_keyed (key : V -> K) (v : V) (d : list (K * list V)) :
  keyed key d -> keyed key (dict_append eqb (key v) v d).
Proof.
  unfold keyed. induction 1 as [|[k l] d [Hne Hk] Hd IH]; simpl.
  - constructor; [|constructor]. simpl. split; [discriminate|].
    constructor; [reflexivity|constructor].
  - simpl in Hne, Hk. destruct (eqb k (key v)) eqn:E.
    + apply eqb_eq in E. constructor; [|exact Hd]. simpl. split.
      * destruct l; discriminate.
      * apply Forall_app. split; [exact Hk|].
        constructor; [symmetry; exact E|constructor].
    + constructor; [|exact IH]. simpl. split; assumption.
Qed.

Lemma dict_append_keys (k : K) (v : V) (d : list (K * list V)) :
  map fst (dict_append eqb k v d)
  = if existsb (fun k' => eqb k' k) (map fst d) then map fst d
    else map fst d ++ [k].
Proof.
  induction d as [|[k' l] d IH]; simpl; [reflexivity|].
  destruct (eqb k' k); simpl; [reflexivity|].
  rewrite IH. destruct (existsb _ _); reflexivity.
Qed.

Lemma dict_append_NoDup (k : K) (v : V) (d : list (K * list V)) :
  NoDup (map fst d) -> NoDup (map fst (dict_append eqb k v d)).
Proof.
  intros Hd. rewrite dict_append_keys.
  destruct (existsb _ _) eqn:E; [exact Hd|].
  apply NoDup_rev in Hd. rewrite <- (rev_involutive (_ ++ _)).
  apply NoDup_rev. rewrite rev_app_distr. simpl.
  constructor; [|exact Hd].
  intros Hin. apply in_rev in Hin.
  assert (existsb (fun k' => eqb k' k) (map fst d) = true) as E'.
  { apply existsb_exists. exists k. split; [exact Hin|apply eqb_refl]. }
  congruence.
Qed.

Lemma dict_append_perm (k : K) (v : V) (d : list (K * list V)) :
  Permutation (List.concat (map snd (dict_append eqb k v d)))
    (List.concat (map snd d) ++ [v]).
Proof.
  induction d as [|[k' l] d IH]; simpl.
  - apply Permutation_refl.
  - destruct (eqb k' k); simpl.
    + rewrite <- !app_assoc. apply Permutation_app_head.
      apply Permutation_app_comm.
    + rewrite <- app_assoc. apply Permutation_app_head, IH.
Qed.

(** What the grouping loop keeps true of the dictionary it fills. *)
Lemma group_loop_invariant (key : V -> K) (l : list V)
  (d : list (K * list V)) :
  keyed key d -> NoDup (map fst d) ->
  let d' := fold_left (fun d v => dict_append eqb (key v) v d) l d in
  keyed key d' /\ NoDup (map fst d')
  /\ Permutation (List.concat (map snd d')) (List.concat (map snd d) ++ l).
Proof.
  revert d. induction l as [|v l IH]; intros d Hk Hn; simpl.
  - rewrite app_nil_r. repeat split; auto.
  - destruct (IH (dict_append eqb (key v) v d)) as (Hk' & Hn' & Hp).
    + apply dict_append_keyed, Hk.
    + apply dict_append_NoDup, Hn.
    + repeat split; auto.
      eapply perm_trans; [exact Hp|].
      change (v :: l) with ([v] ++ l). rewrite app_assoc.
      apply Permutation_app_tail, dict_append_perm.
Qed.

Lemma group_by_keyed (key : V -> K) (l : list V) :
  keyed key (group_by eqb key l).
Proof.
  apply (group_loop_invariant key l []); constructor.
Qed.

Lemma group_by_NoDup (key : V -> K) (l : list V) :
  NoDup (map fst (group_by eqb key l)).
Proof.
  apply (group_loop_invariant key l []); constructor.
Qed.

Lemma group_by_perm (key : V -> K) (l : list V) :
  Permutation (List.concat (map snd (group_by eqb key l))) l.
Proof.
  apply (group_loop_invariant key l []); constructor.
Qed.

Lemma group_by_In (key : V -> K) (l : list V) (k : K) (vs : list V)
  (v : V) :
  In (k, vs) (group_by eqb key l) -> In v vs -> In v l /\ key v = k.
Proof.
  intros Hg Hv. split.
  - apply (Permutation_in _ (group_by_perm key l)).
    apply in_concat. exists vs. split; [|exact Hv].
    apply (in_map snd) in Hg. exact Hg.
  - pose proof (group_by_keyed key l) as Hk. unfold keyed in Hk.
    rewrite Forall_forall in Hk. destruct (Hk _ Hg) as [_ Hall].
    rewrite Forall_forall in Hall. apply Hall, Hv.
Qed.

(** Values of one key only make at most one list. *)
Lemma group_by_one_key (key : V -> K) (l : list V) (k : K) :
  (forall v, In v l -> key v = k) ->
  group_by eqb key l = match l with [] => [] | _ :: _ => [(k, l)] end.
Proof.
  intros Hall.
  assert (forall l acc, (forall v, In v l -> key v = k) -> acc <> [] ->
            fold_left (fun d v => dict_append eqb (key v) v d) l [(k, acc)]
            = [(k, acc ++ l)]) as Hloop.
  { clear l Hall. induction l as [|v l IH]; intros acc Hall Hacc; simpl.
    - rewrite app_nil_r. reflexivity.
    - rewrite (Hall v (or_introl eq_refl)), eqb_refl.
      rewrite IH.
      + rewrite <- app_assoc. reflexivity.
      + intros w Hw. apply Hall. right. exact Hw.
      + destruct acc; discriminate. }
  destruct l as [|v l]; [reflexivity|].
  unfold group_by. simpl. rewrite (Hall v (or_introl eq_refl)).
  apply (Hloop l [v]); [|discriminate].
  intros w Hw. apply Hall. right. exact Hw.
Qed.

End DictFacts.

(** ** The opening bucket *)

Lemma find_app {A : Type} (f : A -> bool) (l1 l2 : list A) :
  find f (l1 ++ l2)
  = match find f l1 with Some x => Some x | None => find f l2 end.
Proof.
  induction l1 as [|x l1 IH]; simpl; [reflexivity|].
  destruct (f x); [reflexivity|exact IH].
Qed.

Lemma find_none_iff {A : Type} (f : A -> bool) (l : list A) :
  find f l = None <-> forall x, In x l -> f x = false.
Proof.
  split.
  - apply find_none.
  - induction l as [|x l IH]; intros H; simpl; [reflexivity|].
    rewrite (H x (or_introl eq_refl)). apply IH.
    intros y Hy. apply H. right. exact Hy.
Qed.

Lemma filter_all {A : Type} (f : A -> bool) (l : list A) :
  (forall x, In x l -> f x = true) -> filter f l = l.
Proof.
  induction l as [|x l IH]; intros H; simpl; [reflexivity|].
  rewrite (H x (or_introl eq_refl)). f_equal. apply IH.
  intros y Hy. apply H. right. exact Hy.
Qed.

(** The loop over the opening bucket, from any state: the combo is the last
    fill with a negative price, the legs are the other fills, in order. *)
Lemma classify_loop (l : list Fill) (c : option Fill) (legs : list Fill) :
  fold_left classify_step l (c, legs)
  = (match find negative_price (rev l) with Some e => Some e | None => c end,
     legs ++ filter (fun e => negb (negative_price e)) l).
Proof.
  revert c legs. induction l as [|e l IH]; intros c legs; simpl.
  - rewrite app_nil_r. reflexivity.
  - rewrite find_app. simpl.
    destruct (negative_price e) eqn:E; simpl; rewrite IH.
    + destruct (find negative_price (rev l)); reflexivity.
    + rewrite <- app_assoc. destruct (find negative_price (rev l)); reflexivity.
Qed.

Lemma combo_exec_last (l : list Fill) :
  combo_exec l = find negative_price (rev l).
Proof.
  unfold combo_exec, classify_opening. rewrite classify_loop. simpl.
  destruct (find negative_price (rev l)); reflexivity.
Qed.

Lemma leg_execs_filter (l : list Fill) :
  leg_execs l = filter (fun e => negb (negative_price e)) l.
Proof.
  unfold leg_execs, classify_opening. rewrite classify_loop. reflexivity.
Qed.

Lemma combo_exec_none (l : list Fill) :
  combo_exec l = None <-> forall e, In e l -> negative_price e = false.
Proof.
  rewrite combo_exec_last, find_none_iff. split; intros H e He; apply H.
  - apply in_rev in He. exact He.
  - apply in_rev. exact He.
Qed.

Lemma combo_exec_some (l : list Fill) (c : Fill) :
  combo_exec l = Some c -> In c l /\ negative_price c = true.
Proof.
  rewrite combo_exec_last. intros H. apply find_some in H.
  destruct H as [Hin Hneg]. split; [apply in_rev; exact Hin|exact Hneg].
Qed.

(** C5. In the opening bucket the fills with a strictly negative price are
    the combo fills and all the others are the leg fills; [combo_exec] is
    the fill with a negative price (the last one, should there be several);
    there is none exactly when no price is negative.  When there is a combo
    fill [c], the entry price is [abs(c.price)], the entry action is
    [c.side], and the contract and the execution that give the row its
    symbol, date and entry time are those of [c]. *)
Theorem opening_combo_classification (opening_execs : list Fill) :
  leg_execs opening_execs
  = filter (fun e => negb (negative_price e)) opening_execs
  /\ (forall e, In e opening_execs ->
        (In e (leg_execs opening_execs) <-> negative_price e = false))
  /\ combo_exec opening_execs = find negative_price (rev opening_execs)
  /\ (combo_exec opening_execs = None
      <-> forall e, In e opening_execs -> negative_price e = false)
  /\ (forall e, In e opening_execs ->
        (forall e', In e' opening_execs ->
           (negative_price e' = true <-> e' = e)) ->
        combo_exec opening_execs = Some e)
  /\ (forall c, combo_exec opening_execs = Some c ->
        In c opening_execs /\ negative_price c = true
        /\ entry_of opening_execs
           = Some {| entry_contract := contract c;
                     entry_execution := execution c;
                     entry_price := PrimFloat.abs (fill_price c);
                     entry_action := fill_side c |}).
Proof.
  split; [apply leg_execs_filter|].
  split.
  { intros e He. rewrite leg_execs_filter, filter_In, negb_true_iff.
    tauto. }
  split; [apply combo_exec_last|].
  split; [apply combo_exec_none|].
  split.
  - intros e He Honly.
    destruct (combo_exec opening_execs) as [c|] eqn:Hc.
    + apply combo_exec_some in Hc. destruct Hc as [Hin Hneg].
      f_equal. apply (Honly c Hin), Hneg.
    + rewrite combo_exec_none in Hc.
      assert (negative_price e = true) as Hneg
        by (apply (Honly e He); reflexivity).
      rewrite (Hc e He) in Hneg. discriminate.
  - intros c Hc. destruct (combo_exec_some _ _ Hc) as [Hin Hneg].
    repeat split; try assumption.
    unfold entry_of. rewrite Hc. reflexivity.
Qed.

(** The fallback of the opening bucket, when no price is negative: every
    fill is a leg. *)
Lemma leg_execs_no_combo (l : list Fill) :
  (forall e, In e l -> negative_price e = false) -> leg_execs l = l.
Proof.
  intros H. rewrite leg_execs_filter. apply filter_all.
  intros e He. rewrite (H e He). reflexivity.
Qed.


(** The spec's example: the two legs of a put spread, priced 5.00 and 1.50,
    and its combo fill, priced -3.50 and sold. *)
Lemma opening_combo_classification_witness :
  entry_of [ fill_at (spx_put 95) 7 100 "SLD" 5;
             fill_at (spx_put 90) 7 100 "BOT" 1.5;
             fill_at spx_bag 7 100 "SLD" (-3.5) ]
  = Some {| entry_contract := spx_bag;
            entry_execution := mkExecution 7 100 "SLD" (-3.5);
            entry_price := 3.5;
            entry_action := "SLD" |}.
Proof.
  destruct (opening_combo_classification
              [ fill_at (spx_put 95) 7 100 "SLD" 5;
                fill_at (spx_put 90) 7 100 "BOT" 1.5;
                fill_at spx_bag 7 100 "SLD" (-3.5) ])
    as (_ & _ & _ & _ & _ & H).
  destruct (H (fill_at spx_bag 7 100 "SLD" (-3.5))) as (_ & _ & He).
  - reflexivity.
  - exact He.
Defined.

(** C3. An opening bucket in which no price is strictly negative has no
    combo fill, and its entry is computed from the legs, which are all its
    fills: with [credit] the sum of the prices of the SLD fills and [debit]
    that of the BOT fills, the entry price is [abs(credit - debit)] and the
    entry action is BOT when [credit > debit] and SLD otherwise, so SLD when
    [credit == debit]. *)
Theorem entry_fallback_from_legs (first_exec : Fill) (rest : list Fill) :
  let opening_execs := first_exec :: rest in
  let credit :=
    Py.sum (map fill_price (filter (has_side "SLD") opening_execs)) in
  let debit :=
    Py.sum (map fill_price (filter (has_side "BOT") opening_execs)) in
  (forall e, In e opening_execs -> negative_price e = false) ->
  combo_exec opening_execs = None
  /\ entry_of opening_execs
     = Some {| entry_contract := contract first_exec;
               entry_execution := execution first_exec;
               entry_price := PrimFloat.abs (credit - debit)%float;
               entry_action := if Py.gt credit debit then "BOT" else "SLD" |}
  /\ (PrimFloat.eqb credit debit = true ->
      option_map entry_action (entry_of opening_execs) = Some "SLD").
Proof.
  intros opening_execs credit debit Hnone.
  assert (combo_exec opening_execs = None) as Hc
    by (apply combo_exec_none; exact Hnone).
  assert (entry_of opening_execs
          = Some {| entry_contract := contract first_exec;
                    entry_execution := execution first_exec;
                    entry_price := PrimFloat.abs (credit - debit)%float;
                    entry_action :=
                      if Py.gt credit debit then "BOT" else "SLD" |}) as He.
  { unfold entry_of. rewrite Hc. unfold opening_execs at 1.
    unfold credit_received, debit_paid.
    rewrite (leg_execs_no_combo opening_execs Hnone). reflexivity. }
  split; [exact Hc|]. split; [exact He|].
  intros Heq. rewrite He. simpl. unfold Py.gt.
  rewrite (float_eqb_not_gt _ _ Heq). reflexivity.
Qed.

Ltac in_cases H :=
  repeat (destruct H as [<-|H]; [reflexivity|]); destruct H.

(** Equal credit and debit: a leg sold and a leg bought at 2.00 each. *)
Lemma entry_fallback_from_legs_witness :
  entry_of [ fill_at (spx_put 95) 7 100 "SLD" 2;
             fill_at (spx_put 90) 7 100 "BOT" 2 ]
  = Some {| entry_contract := spx_put 95;
            entry_execution := mkExecution 7 100 "SLD" 2;
            entry_price := 0;
            entry_action := "SLD" |}.
Proof.
  refine (proj1 (proj2 (entry_fallback_from_legs
            (fill_at (spx_put 95) 7 100 "SLD" 2)
            [fill_at (spx_put 90) 7 100 "BOT" 2] _))).
  intros e He. in_cases He.
Defined.

(** C2, as the code has it.  A bucket of two legs and no combo fill, one
    sold at 5.00 and one bought at 1.50, in either order, has credit 5.00
    above debit 1.50: the entry price is 3.50 and the entry action is BOT,
    that is BUY. *)
Theorem entry_two_legs_is_buy (sold bought : Fill)
  (opening_execs : list Fill) :
  fill_side sold = "SLD" -> fill_price sold = 5%float ->
  fill_side bought = "BOT" -> fill_price bought = 1.5%float ->
  opening_execs = [sold; bought] \/ opening_execs = [bought; sold] ->
  combo_exec opening_execs = None
  /\ option_map entry_action (entry_of opening_execs) = Some "BOT"
  /\ option_map entry_price (entry_of opening_execs) = Some 3.5%float.
Proof.
  destruct sold as [c1 [p1 t1 s1 x1]], bought as [c2 [p2 t2 s2 x2]].
  unfold fill_side, fill_price. simpl.
  intros -> -> -> -> [-> | ->]; repeat split; reflexivity.
Qed.

Lemma entry_two_legs_is_buy_witness :
  option_map entry_action
    (entry_of [ fill_at (spx_put 95) 7 100 "SLD" 5;
                fill_at (spx_put 90) 7 100 "BOT" 1.5 ]) = Some "BOT".
Proof.
  refine (proj1 (proj2 (entry_two_legs_is_buy
            (fill_at (spx_put 95) 7 100 "SLD" 5)
            (fill_at (spx_put 90) 7 100 "BOT" 1.5) _ _ _ _ _ _)));
    try reflexivity.
  left. reflexivity.
Defined.

(** C2 as the spec states it fails: the entry action of that bucket is BOT,
    not SLD (SELL). *)
Lemma entry_two_legs_not_sell :
  option_map entry_action
    (entry_of [ fill_at (spx_put 95) 7 100 "SLD" 5;
                fill_at (spx_put 90) 7 100 "BOT" 1.5 ]) = Some "BOT"
  /\ option_map entry_action
       (entry_of [ fill_at (spx_put 95) 7 100 "SLD" 5;
                   fill_at (spx_put 90) 7 100 "BOT" 1.5 ]) <> Some "SLD".
Proof.
  split; [reflexivity|]. vm_compute. discriminate.
Qed.

(** ** The closing bucket *)

Ltac float_neq H c :=
  apply (f_equal (fun x => PrimFloat.eqb x c)) in H;
  vm_compute in H; discriminate H.

(** C4. A closing bucket with no fill that is both SLD and strictly negative
    in price has no closing combo; with [closing_credit] the sum of the
    strictly positive SLD prices and [closing_debit] the sum of the strictly
    positive BOT prices, the exit price is [closing_debit - closing_credit],
    with no absolute value, and the exit action is SLD when
    [closing_credit > closing_debit] and BOT otherwise; the trade is closed
    with profit [(entry_price - exit_price) * 100]. *)
Theorem exit_fallback_from_legs (closing_execs : list Fill) :
  let credit :=
    Py.sum (map fill_price
              (filter (fun e => has_side "SLD" e && positive_price e)
                 closing_execs)) in
  let debit :=
    Py.sum (map fill_price
              (filter (fun e => has_side "BOT" e && positive_price e)
                 closing_execs)) in
  (forall e, In e closing_execs ->
     fill_side e = "SLD" -> negative_price e = false) ->
  closing_combo closing_execs = None
  /\ exit_of closing_execs
     = ((debit - credit)%float, if Py.gt credit debit then "SLD" else "BOT")
  /\ forall (entry_price : float) (opening_execs : list Fill)
       (later : list (list Fill)),
       outcome_of entry_price (opening_execs :: closing_execs :: later)
       = {| exit_price := Some (debit - credit)%float;
            exit_action := if Py.gt credit debit then "SLD" else "BOT";
            profit := ((entry_price - (debit - credit)) * 100)%float;
            status := "closed" |}.
Proof.
  intros credit debit Hnone.
  assert (closing_combo closing_execs = None) as Hc.
  { apply find_none_iff. intros e He. unfold is_closing_combo, has_side.
    destruct (String.eqb_spec (fill_side e) "SLD") as [Hs|Hs]; simpl.
    - apply (Hnone e He Hs).
    - reflexivity. }
  assert (exit_of closing_execs
          = ((debit - credit)%float,
             if Py.gt credit debit then "SLD" else "BOT")) as Hx.
  { unfold exit_of. rewrite Hc. reflexivity. }
  split; [exact Hc|]. split; [exact Hx|].
  intros entry_price opening_execs later. unfold outcome_of.
  rewrite Hx. reflexivity.
Qed.

(** A closing bucket that sells one leg at 1.00 and buys nothing: the exit
    price, 0 - 1.00, is negative. *)
Lemma exit_fallback_from_legs_witness :
  exit_of [fill_at (spx_put 95) 7 200 "SLD" 1] = ((-1)%float, "SLD").
Proof.
  refine (proj1 (proj2 (exit_fallback_from_legs
            [fill_at (spx_put 95) 7 200 "SLD" 1] _))).
  intros e He _. in_cases He.
Defined.

(** C1, as the code has it.  With entry price 3.50 and a closing bucket of
    one fill, sold at +1.00: the search for a closing combo finds nothing
    (the price is not negative), the fallback sums the legs, the exit price
    is [0 - 1.00 = -1.00] and the profit is
    [(3.50 - (-1.00)) * 100 = 450.00]. *)
Theorem closing_positive_sell_profit (f : Fill) (opening_execs : list Fill)
  (later : list (list Fill)) :
  fill_side f = "SLD" -> fill_price f = 1%float ->
  closing_combo [f] = None
  /\ exit_of [f] = ((-1)%float, "SLD")
  /\ outcome_of 3.5 (opening_execs :: [f] :: later)
     = {| exit_price := Some (-1)%float;
          exit_action := "SLD";
          profit := 450;
          status := "closed" |}
  /\ Py.format_2f (profit (outcome_of 3.5 (opening_execs :: [f] :: later)))
     = "450.00".
Proof.
  destruct f as [c [p t s x]]. unfold fill_side, fill_price. simpl.
  intros -> ->. repeat split; reflexivity.
Qed.

Lemma closing_positive_sell_profit_witness :
  outcome_of 3.5 [ [fill_at spx_bag 7 100 "BOT" (-3.5)];
                   [fill_at spx_bag 7 200 "SLD" 1] ]
  = {| exit_price := Some (-1)%float; exit_action := "SLD";
       profit := 450; status := "closed" |}.
Proof.
  refine (proj1 (proj2 (proj2 (closing_positive_sell_profit
            (fill_at spx_bag 7 200 "SLD" 1)
            [fill_at spx_bag 7 100 "BOT" (-3.5)] [] _ _))));
    reflexivity.
Defined.

(** C1 as the spec states it fails: on that input the fallback is taken, and
    the profit is 450.00, not 250.00. *)
Lemma closing_positive_sell_not_250 :
  closing_combo [fill_at spx_bag 7 200 "SLD" 1] = None
  /\ profit (outcome_of 3.5 [ [fill_at spx_bag 7 100 "BOT" (-3.5)];
                              [fill_at spx_bag 7 200 "SLD" 1] ])
     = 450%float
  /\ profit (outcome_of 3.5 [ [fill_at spx_bag 7 100 "BOT" (-3.5)];
                              [fill_at spx_bag 7 200 "SLD" 1] ])
     <> 250%float
  /\ Py.format_2f
       (profit (outcome_of 3.5 [ [fill_at spx_bag 7 100 "BOT" (-3.5)];
                                 [fill_at spx_bag 7 200 "SLD" 1] ]))
     <> "250.00".
Proof.
  split; [reflexivity|]. split; [reflexivity|]. split.
  - intros H. float_neq H 250%float.
  - vm_compute. discriminate.
Qed.

(** ** Strikes *)

Lemma StronglySorted_impl {A : Type} (R R' : A -> A -> Prop) (l : list A) :
  (forall a b, R a b -> R' a b) -> StronglySorted R l -> StronglySorted R' l.
Proof.
  intros HR. induction 1 as [|x l Hl IH Hx]; constructor.
  - exact IH.
  - eapply Forall_impl; [|exact Hx]. intros b. apply HR.
Qed.

Lemma sort_strikes_perm (strikes : list Z) :
  Permutation (sort_strikes strikes) strikes.
Proof. apply stable_sort_perm. Qed.

Lemma sort_strikes_sorted (strikes : list Z) :
  StronglySorted Z.le (sort_strikes strikes).
Proof.
  apply StronglySorted_impl with (R := fun a b => (a <=? b) = true).
  - intros a b. apply Z.leb_le.
  - apply stable_sort_sorted.
    + intros x y. rewrite !Z.leb_le. lia.
    + intros x y z. rewrite !Z.leb_le. lia.
Qed.

Lemma int_finite (x : float) :
  Py.is_finite x = true -> exists n, Py.int x = Some n.
Proof.
  unfold Py.is_finite, Py.int.
  destruct (Prim2SF x) as [s|s| |s m e]; try discriminate; intros _.
  - exists 0. reflexivity.
  - eexists. reflexivity.
Qed.

(** [collect_strikes] returns the integers of the [strike] attributes, in
    the order of the fills, when every [int(...)] returns. *)
Lemma collect_strikes_spec (l : list Fill) (strikes : list Z) :
  collect_strikes l = Some strikes
  <-> Forall2 (fun n x => Py.int x = Some n) strikes (strike_attrs l).
Proof.
  revert strikes. induction l as [|e l IH]; intros strikes; simpl.
  - split.
    + intros H. injection H as <-. constructor.
    + intros H. inversion H. reflexivity.
  - unfold strike_attrs. simpl. fold (strike_attrs l).
    destruct (strike (contract e)) as [k|]; simpl; [|apply IH].
    split.
    + destruct (Py.int k) as [n|] eqn:En; [|discriminate].
      destruct (collect_strikes l) as [ns|] eqn:El; [|discriminate].
      intros H. injection H as <-. constructor; [exact En|].
      apply IH. reflexivity.
    + intros H. inversion H as [|n x ns xs Hn Hns]; subst.
      rewrite Hn. apply IH in Hns. rewrite Hns. reflexivity.
Qed.

Lemma collect_strikes_total (l : list Fill) :
  (forall x, In x (strike_attrs l) -> Py.is_finite x = true) ->
  exists strikes, collect_strikes l = Some strikes.
Proof.
  induction l as [|e l IH]; intros Hfin; simpl.
  - exists []. reflexivity.
  - unfold strike_attrs in Hfin. simpl in Hfin. fold (strike_attrs l) in Hfin.
    destruct IH as [ns Hns].
    { intros x Hx. apply Hfin, in_or_app. right. exact Hx. }
    destruct (strike (contract e)) as [k|]; [|exists ns; exact Hns].
    destruct (int_finite k) as [n Hn].
    { apply Hfin, in_or_app. left. left. reflexivity. }
    exists (n :: ns). rewrite Hn, Hns. reflexivity.
Qed.

(** C7. For an opening bucket whose strike attributes are numbers, the
    strikes are the integers [int(strike)] of the fills that carry one, in
    the order of the fills; sorted ascending, they give the string: the two
    smallest as "low/high" when there are two or more, the only one when
    there is one, "unknown" when there is none.  So the string names at most
    two strikes. *)
Theorem strikes_rendering (opening_execs : list Fill) :
  (forall x, In x (strike_attrs opening_execs) -> Py.is_finite x = true) ->
  exists strikes,
    collect_strikes opening_execs = Some strikes
    /\ Forall2 (fun n x => Py.int x = Some n) strikes
         (strike_attrs opening_execs)
    /\ Permutation (sort_strikes strikes) strikes
    /\ StronglySorted Z.le (sort_strikes strikes)
    /\ match sort_strikes strikes with
       | [] =>
           strikes = [] /\ strikes_str opening_execs = Some "unknown"
       | [k] =>
           strikes = [k] /\ strikes_str opening_execs = Some (Py.str k)
       | low :: high :: more =>
           (2 <= List.length strikes)%nat
           /\ low <= high
           /\ (forall k, In k more -> high <= k)
           /\ strikes_str opening_execs
              = Some (Py.str low ++ "/" ++ Py.str high)%string
       end.
Proof.
  intros Hfin. destruct (collect_strikes_total _ Hfin) as [strikes Hs].
  exists strikes. split; [exact Hs|].
  split; [apply collect_strikes_spec; exact Hs|].
  pose proof (sort_strikes_perm strikes) as Hp.
  pose proof (sort_strikes_sorted strikes) as Hsorted.
  split; [exact Hp|]. split; [exact Hsorted|].
  unfold strikes_str. rewrite Hs.
  destruct (sort_strikes strikes) as [|low [|high more]] eqn:E.
  - split; [|reflexivity]. apply Permutation_nil. exact Hp.
  - split; [|reflexivity]. apply Permutation_length_1_inv. exact Hp.
  - split; [|split; [|split]].
    + apply Permutation_length in Hp. simpl in Hp. lia.
    + inversion Hsorted as [|? ? _ Hlow]; subst.
      inversion Hlow; subst. assumption.
    + inversion Hsorted as [|? ? Hrest _]; subst.
      inversion Hrest as [|? ? _ Hhigh]; subst.
      rewrite Forall_forall in Hhigh. exact Hhigh.
    + reflexivity.
Qed.

Lemma strikes_rendering_witness :
  strikes_str [ fill_at (spx_put 95) 7 100 "SLD" 5;
                fill_at (spx_put 90) 7 100 "BOT" 1.5 ] = Some "90/95".
Proof.
  destruct (strikes_rendering
              [ fill_at (spx_put 95) 7 100 "SLD" 5;
                fill_at (spx_put 90) 7 100 "BOT" 1.5 ])
    as (strikes & Hs & _ & _ & _ & H).
  - intros x Hx. in_cases Hx.
  - vm_compute in Hs. injection Hs as <-.
    destruct H as (_ & _ & _ & H). exact H.
Defined.

(** The examples of the spec, and a bucket with three strikes. *)
Lemma strikes_examples :
  strikes_str [ fill_at (spx_put 90) 7 100 "BOT" 1.5;
                fill_at (spx_put 95) 7 100 "SLD" 5 ] = Some "90/95"
  /\ strikes_str [ fill_at (spx_put 100) 7 100 "SLD" 5 ] = Some "100"
  /\ strikes_str [ fill_at spx_bag 7 100 "SLD" (-3.5) ] = Some "unknown"
  /\ strikes_str [ fill_at (spx_put 100) 7 100 "SLD" 5;
                   fill_at (spx_put 90) 7 100 "BOT" 1.5;
                   fill_at (spx_put 95) 7 100 "BOT" 2 ] = Some "90/95"
  /\ strikes_str [ fill_at (spx_put infinity) 7 100 "SLD" 5 ] = None.
Proof. repeat split; reflexivity. Qed.

(** ** Orders with a single time bucket *)

Lemma time_groups_one_time (execs : list Fill) :
  (forall e1 e2, In e1 execs -> In e2 execs -> fill_time e1 = fill_time e2) ->
  time_groups execs
  = match execs with [] => [] | _ :: _ => [sort_by_time execs] end.
Proof.
  intros Hsame. unfold time_groups, times.
  destruct execs as [|e0 execs']; [reflexivity|].
  set (execs := e0 :: execs') in *.
  rewrite (group_by_one_key Z.eqb Z.eqb_eq fill_time (sort_by_time execs)
             (fill_time e0)).
  - destruct (sort_by_time execs) as [|x l] eqn:E; [|reflexivity].
    assert (In e0 (sort_by_time execs)) as Hin.
    { apply stable_sort_In. left. reflexivity. }
    rewrite E in Hin. destruct Hin.
  - intros v Hv. apply stable_sort_In in Hv.
    apply Hsame; [exact Hv|left; reflexivity].
Qed.

Section CollectorFacts.

Variable strftime_datetime : Z -> string.
Variable strftime_date : Z -> string.
Variable strategy : string.

Lemma trades_of_In (orders : list (Z * list Fill)) (r : Row) :
  In r (trades_of strftime_datetime strftime_date strategy orders) ->
  exists perm_id execs,
    In (perm_id, execs) orders
    /\ process_group strftime_datetime strftime_date strategy execs = Wrote r.
Proof.
  induction orders as [|[k execs] orders IH]; simpl; [intros []|].
  destruct (process_group strftime_datetime strftime_date strategy execs)
    as [| |r'] eqn:E.
  - intros H. destruct (IH H) as (k' & ex' & Hin & Hp).
    exists k', ex'. split; [right; exact Hin|exact Hp].
  - intros [].
  - intros [<-|H].
    + exists k, execs. split; [left; reflexivity|exact E].
    + destruct (IH H) as (k' & ex' & Hin & Hp).
      exists k', ex'. split; [right; exact Hin|exact Hp].
Qed.

(** The row of an order is written from its opening bucket and from the
    outcome of its time buckets. *)
Lemma process_group_row (execs : list Fill) (r : Row) :
  process_group strftime_datetime strftime_date strategy execs = Wrote r ->
  exists opening_execs later en strikes,
    time_groups execs = opening_execs :: later
    /\ entry_of opening_execs = Some en
    /\ strikes_str opening_execs = Some strikes
    /\ r = make_row strftime_datetime strftime_date strategy opening_execs
             en strikes
             (outcome_of (entry_price en) (opening_execs :: later)).
Proof.
  unfold process_group.
  destruct (time_groups execs) as [|opening_execs later]; [discriminate|].
  destruct (entry_of opening_execs) as [en|] eqn:Een; [|discriminate].
  destruct (strikes_str opening_execs) as [strikes|] eqn:Es; [|discriminate].
  intros H. injection H as <-.
  exists opening_execs, later, en, strikes. repeat split; assumption.
Qed.

(** The loop appends the cells of the rows it writes, and counts them. *)
Lemma write_trades_spec (orders : list (Z * list Fill))
  (csvfile : list Line) (n : Z) :
  write_trades strftime_datetime strftime_date strategy orders csvfile n
  = (csvfile
     ++ map row_cells
          (trades_of strftime_datetime strftime_date strategy orders),
     if raises strftime_datetime strftime_date strategy orders then None
     else Some
            (n + Z.of_nat
                   (List.length
                      (trades_of strftime_datetime strftime_date strategy
                         orders)))).
Proof.
  revert csvfile n. induction orders as [|[k execs] orders IH];
    intros csvfile n; simpl.
  - rewrite app_nil_r, Z.add_0_r. reflexivity.
  - destruct (process_group _ _ _ execs) as [| |r].
    + apply IH.
    + rewrite app_nil_r. reflexivity.
    + rewrite IH. simpl map. rewrite <- app_assoc. simpl.
      destruct (raises _ _ _ orders); [reflexivity|].
      do 2 f_equal. simpl List.length. lia.
Qed.

(** A single run: the lines of the ledger after it. *)
Lemma collect_daily_results_lines (ledger : option (list Line))
  (executions : list Fill) :
  fst (collect_daily_results strftime_datetime strftime_date strategy ledger
         executions)
  = match executions, ledger with
    | [], _ => ledger
    | _ :: _, Some lines =>
        Some (lines
              ++ map row_cells
                   (trades_of strftime_datetime strftime_date strategy
                      (trades_by_perm_id executions)))
    | _ :: _, None =>
        Some (fieldnames
              :: map row_cells
                   (trades_of strftime_datetime strftime_date strategy
                      (trades_by_perm_id executions)))
    end.
Proof.
  unfold collect_daily_results.
  destruct executions as [|e executions]; [reflexivity|].
  rewrite write_trades_spec. simpl. destruct ledger; reflexivity.
Qed.

(** C6. When all the fills of each permanent id carry one timestamp, every
    order has a single time bucket and its outcome is the open one: no
    exit price, no exit action, profit 0; every row the run writes has
    status "open", an empty exit_price cell, an empty exit_action cell and
    profit "0.00", and these rows are what the run appends to the ledger. *)
Theorem single_bucket_trades_open (executions : list Fill) :
  (forall e1 e2, In e1 executions -> In e2 executions ->
     fill_permId e1 = fill_permId e2 -> fill_time e1 = fill_time e2) ->
  (forall perm_id execs entry_price,
     In (perm_id, execs) (trades_by_perm_id executions) ->
     List.length (time_groups execs) = 1%nat
     /\ outcome_of entry_price (time_groups execs)
        = {| exit_price := None; exit_action := ""; profit := 0;
             status := "open" |})
  /\ (forall r,
        In r (trades_of strftime_datetime strftime_date strategy
                (trades_by_perm_id executions)) ->
        col_status r = "open" /\ col_exit_price r = ""
        /\ col_exit_action r = "" /\ col_profit r = "0.00")
  /\ (forall lines,
        fst (collect_daily_results strftime_datetime strftime_date strategy
               (Some lines) executions)
        = Some (lines
                ++ map row_cells
                     (trades_of strftime_datetime strftime_date strategy
                        (trades_by_perm_id executions)))).
Proof.
  intros Hsame.
  assert (forall perm_id execs,
            In (perm_id, execs) (trades_by_perm_id executions) ->
            time_groups execs = [sort_by_time execs]) as Hone.
  { intros perm_id execs Hin.
    pose proof (group_by_keyed Z.eqb Z.eqb_eq fill_permId executions) as Hk.
    unfold keyed in Hk. rewrite Forall_forall in Hk.
    destruct (Hk _ Hin) as [Hne _]. simpl in Hne.
    rewrite time_groups_one_time.
    - destruct execs; [contradiction|reflexivity].
    - intros e1 e2 H1 H2.
      destruct (group_by_In Z.eqb Z.eqb_eq fill_permId executions
                  perm_id execs e1 Hin H1) as [Hi1 Hk1].
      destruct (group_by_In Z.eqb Z.eqb_eq fill_permId executions
                  perm_id execs e2 Hin H2) as [Hi2 Hk2].
      apply Hsame; congruence. }
  split; [|split].
  - intros perm_id execs entry_price Hin. rewrite (Hone _ _ Hin).
    split; reflexivity.
  - intros r Hr. apply trades_of_In in Hr.
    destruct Hr as (perm_id & execs & Hin & Hp).
    apply process_group_row in Hp.
    destruct Hp as (opening_execs & later & en & strikes & Htg & _ & _ & ->).
    rewrite (Hone _ _ Hin) in Htg. injection Htg as <- <-.
    repeat split; reflexivity.
  - intros lines. rewrite collect_daily_results_lines.
    destruct executions; [|reflexivity].
    simpl. rewrite app_nil_r. reflexivity.
Qed.

End CollectorFacts.

Ltac in_pairs H1 H2 :=
  repeat (destruct H1 as [<-|H1];
          [repeat (destruct H2 as [<-|H2];
                   [simpl; intros Hp; first [reflexivity|discriminate Hp]|]);
           destruct H2|]);
  destruct H1.

Lemma single_bucket_trades_open_witness :
  Forall (fun r => col_status r = "open" /\ col_exit_price r = ""
                   /\ col_exit_action r = "" /\ col_profit r = "0.00")
    (trades_of Py.str Py.str "ZeroTheta" (trades_by_perm_id open_session))
  /\ List.length
       (trades_of Py.str Py.str "ZeroTheta" (trades_by_perm_id open_session))
     = 2%nat.
Proof.
  split; [|reflexivity].
  apply Forall_forall. intros r Hr.
  refine (proj1 (proj2 (single_bucket_trades_open Py.str Py.str "ZeroTheta"
                          open_session _)) r Hr).
  intros e1 e2 H1 H2. unfold open_session in H1, H2. in_pairs H1 H2.
Defined.

(** ** The ledger *)

Section LedgerFacts.

Variable strftime_datetime : Z -> string.
Variable strftime_date : Z -> string.
Variable strategy : string.

(** No row is the header: its status cell is "open" or "closed". *)
Lemma row_not_header (orders : list (Z * list Fill)) (r : Row) :
  In r (trades_of strftime_datetime strftime_date strategy orders) ->
  row_cells r <> fieldnames.
Proof.
  intros Hr. apply trades_of_In in Hr.
  destruct Hr as (k & execs & _ & Hp). apply process_group_row in Hp.
  destruct Hp as (opening_execs & later & en & strikes & _ & _ & _ & ->).
  unfold row_cells, fieldnames. intros H.
  injection H as _ _ _ _ _ _ _ _ _ _ Hs _. simpl in Hs.
  unfold outcome_of in Hs. destruct later as [|closing_execs later'].
  - discriminate Hs.
  - destruct (exit_of closing_execs). discriminate Hs.
Qed.

Lemma header_not_in_rows (orders : list (Z * list Fill)) :
  ~ In fieldnames
      (map row_cells
         (trades_of strftime_datetime strftime_date strategy orders)).
Proof.
  intros H. apply in_map_iff in H. destruct H as (r & Hr & Hin).
  exact (row_not_header orders r Hin Hr).
Qed.

(** Runs against a ledger that exists only append lines, none of them a
    header. *)
Lemma runs_existing (sessions : list (list Fill)) (lines : list Line) :
  exists data,
    runs strftime_datetime strftime_date strategy (Some lines) sessions
    = Some (lines ++ data)
    /\ ~ In fieldnames data.
Proof.
  revert lines. induction sessions as [|executions sessions IH];
    intros lines; unfold runs; simpl.
  - exists []. rewrite app_nil_r. split; [reflexivity|intros []].
  - rewrite collect_daily_results_lines.
    destruct executions as [|e executions'].
    + apply IH.
    + set (rows := map row_cells _).
      destruct (IH (lines ++ rows)) as (data & Hd & Hn).
      exists (rows ++ data). unfold runs in Hd. rewrite Hd.
      rewrite app_assoc. split; [reflexivity|].
      intros Hin. apply in_app_or in Hin. destruct Hin as [Hin|Hin].
      * exact (header_not_in_rows _ Hin).
      * exact (Hn Hin).
Qed.

(** Runs from a ledger that does not exist: no file as long as the source
    returns nothing, then the header, once, and rows. *)
Lemma runs_new (sessions : list (list Fill)) :
  runs strftime_datetime strftime_date strategy None sessions = None
  \/ exists data,
       runs strftime_datetime strftime_date strategy None sessions
       = Some (fieldnames :: data)
       /\ ~ In fieldnames data.
Proof.
  induction sessions as [|executions sessions IH]; unfold runs; simpl.
  - left. reflexivity.
  - rewrite collect_daily_results_lines.
    destruct executions as [|e executions']; [exact IH|].
    right. set (rows := map row_cells _).
    destruct (runs_existing sessions (fieldnames :: rows)) as (data & Hd & Hn).
    exists (rows ++ data). unfold runs in Hd. rewrite Hd.
    split; [reflexivity|].
    intros Hin. apply in_app_or in Hin. destruct Hin as [Hin|Hin].
    + exact (header_not_in_rows _ Hin).
    + exact (Hn Hin).
Qed.

(** C9. A run appends one line per trade, after the lines the ledger has,
    which it leaves as they are; it writes the header first when, and only
    when, the ledger does not exist yet (and the source returned something).
    Over any number of runs a ledger that exists never gets a header, and a
    new ledger gets exactly one, as its first line.  The appended rows depend
    on the executions only: the same executions twice give the same rows
    twice. *)
Theorem ledger_header_once (executions : list Fill)
  (sessions : list (list Fill)) :
  let trades :=
    trades_of strftime_datetime strftime_date strategy
      (trades_by_perm_id executions) in
  let collect := collect_daily_results strftime_datetime strftime_date
                   strategy in
  let runs := runs strftime_datetime strftime_date strategy in
  (forall lines,
     fst (collect (Some lines) executions)
     = Some (lines ++ map row_cells trades))
  /\ fst (collect None executions)
     = match executions with
       | [] => None
       | _ :: _ => Some (fieldnames :: map row_cells trades)
       end
  /\ ~ In fieldnames (map row_cells trades)
  /\ (forall ledger,
        raises strftime_datetime strftime_date strategy
          (trades_by_perm_id executions) = false ->
        snd (collect ledger executions)
        = Some (Z.of_nat (List.length trades)))
  /\ (forall lines, exists data,
        runs (Some lines) sessions = Some (lines ++ data)
        /\ ~ In fieldnames data)
  /\ (runs None sessions = None
      \/ exists data,
           runs None sessions = Some (fieldnames :: data)
           /\ ~ In fieldnames data)
  /\ (forall lines,
        runs (Some lines) [executions; executions]
        = Some (lines ++ map row_cells trades ++ map row_cells trades)).
Proof.
  intros trades collect runs'.
  assert (forall lines,
            fst (collect (Some lines) executions)
            = Some (lines ++ map row_cells trades)) as Hrun.
  { intros lines. unfold collect. rewrite collect_daily_results_lines.
    destruct executions; [|reflexivity].
    simpl. rewrite app_nil_r. reflexivity. }
  split; [exact Hrun|].
  split.
  { unfold collect. rewrite collect_daily_results_lines.
    destruct executions; reflexivity. }
  split; [apply header_not_in_rows|].
  split.
  { intros ledger Hraise. unfold collect, collect_daily_results.
    destruct executions as [|e executions']; [reflexivity|].
    rewrite write_trades_spec, Hraise. reflexivity. }
  split; [apply runs_existing|].
  split; [apply runs_new|].
  intros lines. unfold runs', runs. simpl. fold collect.
  rewrite Hrun. simpl. rewrite Hrun, app_assoc. reflexivity.
Qed.

End LedgerFacts.

(** ** The exit_price cell *)

Lemma round_half_even_nonneg (num den : Z) :
  0 <= num -> 0 < den -> 0 <= Py.round_half_even num den.
Proof.
  intros Hn Hd. unfold Py.round_half_even.
  assert (0 <= num / den) by (apply Z.div_pos; assumption).
  destruct (2 * (num mod den) ?= den); [destruct (Z.even _)| |]; lia.
Qed.

Lemma hundredths_nonneg (m : positive) (e : Z) : 0 <= Py.hundredths m e.
Proof.
  unfold Py.hundredths. destruct (0 <=? e) eqn:E.
  - apply Z.leb_le in E.
    assert (0 < 2 ^ e) by (apply Z.pow_pos_nonneg; lia). nia.
  - apply Z.leb_gt in E. apply round_half_even_nonneg; [lia|].
    apply Z.pow_pos_nonneg; lia.
Qed.

(** The digits of a negative number: a minus sign, the integer part, a
    point and two decimals. *)
Lemma format_2f_negative (x : float) :
  PrimFloat.ltb x 0%float = true -> Py.is_finite x = true ->
  exists k a b,
    0 <= k /\ 0 <= a <= 9 /\ 0 <= b <= 9
    /\ Py.format_2f x
       = ("-" ++ Py.str k ++ "." ++ Py.digit a ++ Py.digit b)%string.
Proof.
  intros Hneg Hfin. destruct (float_negative x Hneg) as [_ [Hinf|(m & e & Hm)]].
  - unfold Py.is_finite in Hfin. rewrite Hinf in Hfin. discriminate.
  - unfold Py.format_2f. rewrite Hm. simpl Py.sign_str.
    pose proof (hundredths_nonneg m e) as Hn.
    set (n := Py.hundredths m e) in *.
    exists (n / 100), (n mod 100 / 10), (n mod 10).
    split; [apply Z.div_pos; lia|].
    split; [|split; [|reflexivity]].
    + pose proof (Z.mod_pos_bound n 100 ltac:(lia)) as Hb.
      split; [apply Z.div_pos; lia|].
      apply Z.lt_succ_r. apply Z.div_lt_upper_bound; lia.
    + pose proof (Z.mod_pos_bound n 10 ltac:(lia)). lia.
Qed.

(** C10. The exit_price cell is empty when there is no exit price and
    when the exit price is zero, also on a closed trade: the cell tests the
    truth value of the price.  A strictly negative exit price is written
    with its digits: a minus sign, the integer part, a point and two
    decimals. *)
Theorem exit_price_cell_truthiness :
  exit_price_cell None = ""
  /\ (forall x, PrimFloat.eqb x 0%float = true ->
        exit_price_cell (Some x) = "")
  /\ (forall x, PrimFloat.ltb x 0%float = true ->
        exit_price_cell (Some x) = Py.format_2f x
        /\ (Py.is_finite x = true ->
            exists k a b,
              0 <= k /\ 0 <= a <= 9 /\ 0 <= b <= 9
              /\ exit_price_cell (Some x)
                 = ("-" ++ Py.str k ++ "." ++ Py.digit a ++ Py.digit b)%string))
  /\ (forall strftime_datetime strftime_date strategy opening_execs en strikes
        closing_execs later,
        let o := outcome_of (entry_price en)
                   (opening_execs :: closing_execs :: later) in
        let r := make_row strftime_datetime strftime_date strategy
                   opening_execs en strikes o in
        col_status r = "closed"
        /\ exit_price o = Some (fst (exit_of closing_execs))
        /\ col_exit_price r
           = exit_price_cell (Some (fst (exit_of closing_execs)))
        /\ (PrimFloat.eqb (fst (exit_of closing_execs)) 0%float = true ->
            col_exit_price r = "")).
Proof.
  assert (forall x, PrimFloat.eqb x 0%float = true ->
                    exit_price_cell (Some x) = "") as Hzero.
  { intros x Hx. unfold exit_price_cell, Py.truthy. rewrite Hx. reflexivity. }
  split; [reflexivity|]. split; [exact Hzero|]. split.
  - intros x Hneg.
    assert (exit_price_cell (Some x) = Py.format_2f x) as Hcell.
    { unfold exit_price_cell, Py.truthy.
      destruct (float_negative x Hneg) as [-> _]. reflexivity. }
    split; [exact Hcell|].
    intros Hfin. rewrite Hcell. apply format_2f_negative; assumption.
  - intros strftime_datetime strftime_date strategy opening_execs en strikes
      closing_execs later o r.
    assert (exit_price o = Some (fst (exit_of closing_execs))
            /\ status o = "closed") as [Hx Hs].
    { unfold o, outcome_of. destruct (exit_of closing_execs).
      split; reflexivity. }
    assert (col_exit_price r
            = exit_price_cell (Some (fst (exit_of closing_execs)))) as Hc.
    { unfold r. simpl. rewrite Hx. reflexivity. }
    repeat split; try assumption.
    intros Hz. rewrite Hc. apply Hzero, Hz.
Qed.

(** An order closed by buying a leg at 1.00 and selling a leg at 1.00: the
    exit price is 0 and the row of the closed trade has an empty exit_price
    cell; closed by selling a leg at 1.00 only, the cell is "-1.00". *)
Lemma exit_price_cell_examples :
  process_group Py.str Py.str "ZeroTheta"
    [ fill_at spx_bag 7 100 "BOT" (-3.5);
      fill_at (spx_put 95) 7 200 "BOT" 1;
      fill_at (spx_put 90) 7 200 "SLD" 1 ]
  = Wrote {| col_date := "100"; col_trade_type := "unknown";
             col_symbol := "SPX"; col_strikes := "unknown";
             col_entry_action := "BOT"; col_entry_time := "100";
             col_entry_price := "3.50"; col_exit_action := "BOT";
             col_exit_price := ""; col_profit := "350.00";
             col_status := "closed"; col_strategy := "ZeroTheta" |}
  /\ process_group Py.str Py.str "ZeroTheta"
       [ fill_at spx_bag 7 100 "BOT" (-3.5);
         fill_at (spx_put 90) 7 200 "SLD" 1 ]
     = Wrote {| col_date := "100"; col_trade_type := "unknown";
                col_symbol := "SPX"; col_strikes := "unknown";
                col_entry_action := "BOT"; col_entry_time := "100";
                col_entry_price := "3.50"; col_exit_action := "SLD";
                col_exit_price := "-1.00"; col_profit := "450.00";
                col_status := "closed"; col_strategy := "ZeroTheta" |}.
Proof. split; reflexivity. Qed.

(** ** The re-pairing of the presentation layer *)

(** *** Counting labels *)

Lemma le_count_refl (l : list nat) : le_count l l.
Proof. intros x. lia. Qed.

Lemma le_count_trans (l1 l2 l3 : list nat) :
  le_count l1 l2 -> le_count l2 l3 -> le_count l1 l3.
Proof. intros H1 H2 x. specialize (H1 x). specialize (H2 x). lia. Qed.

Lemma le_count_perm (l l' : list nat) : Permutation l l' -> le_count l l'.
Proof.
  intros H x. rewrite (Permutation_count_occ Nat.eq_dec l l') in H.
  rewrite H. lia.
Qed.

Lemma le_count_NoDup (l' l : list nat) :
  le_count l' l -> NoDup l -> NoDup l'.
Proof.
  intros H Hn. apply (NoDup_count_occ Nat.eq_dec). intros x.
  rewrite (NoDup_count_occ Nat.eq_dec) in Hn.
  specialize (H x). specialize (Hn x). lia.
Qed.

Lemma le_count_In (l' l : list nat) (x : nat) :
  le_count l' l -> In x l' -> In x l.
Proof.
  intros H Hin. apply (count_occ_In Nat.eq_dec).
  apply (count_occ_In Nat.eq_dec) in Hin. specialize (H x). lia.
Qed.

Lemma le_count_app (l1' l1 l2' l2 : list nat) :
  le_count l1' l1 -> le_count l2' l2 -> le_count (l1' ++ l2') (l1 ++ l2).
Proof.
  intros H1 H2 x. rewrite !count_occ_app.
  specialize (H1 x). specialize (H2 x). lia.
Qed.

Lemma le_count_flat_map {G : Type} (f' f : G -> list nat) (gs : list G) :
  (forall g, In g gs -> le_count (f' g) (f g)) ->
  le_count (flat_map f' gs) (flat_map f gs).
Proof.
  induction gs as [|g gs IH]; intros H; simpl.
  - apply le_count_refl.
  - apply le_count_app.
    + apply H. left. reflexivity.
    + apply IH. intros g' Hg'. apply H. right. exact Hg'.
Qed.

Lemma le_count_interleave (l1 l2 : list nat) :
  le_count (interleave l1 l2) (l1 ++ l2).
Proof.
  revert l2. induction l1 as [|a l1 IH]; intros l2 x; simpl; [lia|].
  destruct l2 as [|b l2]; simpl; [lia|].
  specialize (IH l2 x). rewrite count_occ_app in *. simpl.
  destruct (Nat.eq_dec a x), (Nat.eq_dec b x); lia.
Qed.

Lemma le_count_filter {X : Type} (lab : X -> nat) (p : X -> bool)
  (l : list X) :
  le_count (map lab (filter p l)) (map lab l).
Proof.
  induction l as [|a l IH]; intros x; simpl; [lia|].
  specialize (IH x). destruct (p a); simpl; destruct (Nat.eq_dec _ _); lia.
Qed.

(** Two filters that exclude each other. *)
Lemma le_count_two_filters {X : Type} (lab : X -> nat) (p q : X -> bool)
  (l : list X) :
  (forall a, p a = true -> q a = false) ->
  le_count (map lab (filter p l) ++ map lab (filter q l)) (map lab l).
Proof.
  intros Hpq. induction l as [|a l IH]; intros x; simpl; [lia|].
  specialize (IH x). rewrite count_occ_app in *.
  destruct (p a) eqn:Ep.
  - rewrite (Hpq a Ep). simpl. destruct (Nat.eq_dec _ _); lia.
  - destruct (q a); simpl; destruct (Nat.eq_dec _ _); lia.
Qed.

(** *** Assignments to the profit column *)

Lemma fold_left_flat_map {S X Y : Type} (step : S -> Y -> S)
  (f : X -> list Y) (l : list X) (s : S) :
  fold_left (fun s x => fold_left step (f x) s) l s
  = fold_left step (flat_map f l) s.
Proof.
  revert s. induction l as [|x l IH]; intros s; simpl; [reflexivity|].
  rewrite fold_left_app. apply IH.
Qed.

Section DashboardFacts.

Import Dashboard.

Variable sort_values : DataFrame -> DataFrame.
Hypothesis sort_values_spec : sorts_by_entry_time sort_values.

Lemma with_profit_twice (p q : float) (r : LedgerRow) :
  with_profit p (with_profit q r) = with_profit p r.
Proof. reflexivity. Qed.

Lemma loc_set_profit_reset (idx : nat) (p : float) (df : DataFrame) :
  reset_profit (loc_set_profit idx p df) = reset_profit df.
Proof.
  unfold reset_profit, loc_set_profit. rewrite map_map.
  apply map_ext. intros [i r]. simpl. destruct (Nat.eqb i idx); reflexivity.
Qed.

Lemma assign_all_reset (l : list (nat * float)) (df : DataFrame) :
  reset_profit (assign_all l df) = reset_profit df.
Proof.
  revert df. induction l as [|a l IH]; intros df; simpl; [reflexivity|].
  unfold assign_all in *. simpl. rewrite IH. apply loc_set_profit_reset.
Qed.

Lemma reset_profit_labels (df : DataFrame) :
  map fst (reset_profit df) = map fst df.
Proof. unfold reset_profit. rewrite map_map. reflexivity. Qed.

Lemma reset_profit_twice (df : DataFrame) :
  reset_profit (reset_profit df) = reset_profit df.
Proof. unfold reset_profit. rewrite map_map. reflexivity. Qed.

Lemma loc_set_profit_other (idx i : nat) (p : float) (r : LedgerRow)
  (df : DataFrame) :
  idx <> i ->
  (In (idx, r) (loc_set_profit i p df) <-> In (idx, r) df).
Proof.
  intros Hne. unfold loc_set_profit. rewrite in_map_iff. split.
  - intros ([j r'] & Heq & Hin). simpl in Heq.
    destruct (Nat.eqb_spec j i) as [->|Hj].
    + injection Heq as -> _. contradiction.
    + rewrite <- Heq. exact Hin.
  - intros Hin. exists (idx, r). split; [|exact Hin]. simpl.
    destruct (Nat.eqb_spec idx i); [contradiction|reflexivity].
Qed.

Lemma loc_set_profit_same (i : nat) (p : float) (r : LedgerRow)
  (df : DataFrame) :
  In (i, r) df -> In (i, with_profit p r) (loc_set_profit i p df).
Proof.
  intros Hin. unfold loc_set_profit. apply in_map_iff.
  exists (i, r). split; [|exact Hin]. simpl. rewrite Nat.eqb_refl.
  reflexivity.
Qed.

(** A label that gets no assignment keeps its row. *)
Lemma assign_all_other (l : list (nat * float)) (df : DataFrame) (idx : nat)
  (r : LedgerRow) :
  ~ In idx (map fst l) ->
  (In (idx, r) (assign_all l df) <-> In (idx, r) df).
Proof.
  revert df. induction l as [|[i p] l IH]; intros df Hn; [reflexivity|].
  simpl in Hn. unfold assign_all in *. simpl. rewrite IH by tauto.
  apply loc_set_profit_other. intros ->. apply Hn. left. reflexivity.
Qed.

(** A label that gets one assignment gets its profit. *)
Lemma assign_all_assigned (l : list (nat * float)) (df : DataFrame)
  (idx : nat) (p : float) (r : LedgerRow) :
  NoDup (map fst l) -> In (idx, p) l -> In (idx, r) df ->
  In (idx, with_profit p r) (assign_all l df).
Proof.
  revert df. induction l as [|[i q] l IH]; intros df Hn Hl Hdf; [destruct Hl|].
  simpl in Hn. apply NoDup_cons_iff in Hn. destruct Hn as [Hi Hn].
  change (In (idx, with_profit p r) (assign_all l (loc_set_profit i q df))).
  destruct Hl as [Heq|Hl].
  - injection Heq as -> ->. apply assign_all_other; [exact Hi|].
    apply loc_set_profit_same, Hdf.
  - apply IH; try assumption. apply loc_set_profit_other; [|exact Hdf].
    intros ->. apply Hi. apply (in_map fst) in Hl. exact Hl.
Qed.

Lemma pair_group_assign (df group : DataFrame) :
  pair_group sort_values df group
  = assign_all
      (flat_map pair_assignments
         (combine (bot_rows sort_values group) (sld_rows sort_values group)))
      df.
Proof.
  unfold pair_group, assign_all. rewrite <- fold_left_flat_map.
  generalize
    (combine (bot_rows sort_values group) (sld_rows sort_values group)).
  intros pairs.
  revert df. induction pairs as [|[bot sld] pairs IH]; intros df; simpl;
    [reflexivity|].
  apply IH.
Qed.

Lemma pair_groups_assign (groups : list (Key * DataFrame)) (df : DataFrame) :
  pair_groups sort_values groups df
  = assign_all (assignments sort_values groups) df.
Proof.
  unfold pair_groups, assignments, assign_all.
  rewrite <- fold_left_flat_map.
  revert df. induction groups as [|g groups IH]; intros df; simpl;
    [reflexivity|].
  rewrite pair_group_assign. apply IH.
Qed.

End DashboardFacts.

(** *** Groups, labels and pairs *)

Lemma map_fst_combine {X Y : Type} (l : list X) (l' : list Y) :
  List.length l = List.length l' -> map fst (combine l l') = l.
Proof.
  revert l'. induction l as [|a l IH]; intros [|b l'] H; simpl in *;
    try discriminate; [reflexivity|].
  f_equal. apply IH. lia.
Qed.

Lemma map_flat_map {X Y Z : Type} (f : Y -> Z) (g : X -> list Y)
  (l : list X) :
  map f (flat_map g l) = flat_map (fun x => map f (g x)) l.
Proof.
  induction l as [|x l IH]; simpl; [reflexivity|].
  rewrite map_app, IH. reflexivity.
Qed.

Lemma perm_flat_map {X Y : Type} (f : X -> list Y) (l l' : list X) :
  Permutation l l' -> Permutation (flat_map f l) (flat_map f l').
Proof.
  induction 1 as [|x l l' _ IH|x y l|l1 l2 l3 _ IH1 _ IH2]; simpl.
  - apply perm_nil.
  - apply Permutation_app_head, IH.
  - rewrite !app_assoc. apply Permutation_app_tail, Permutation_app_comm.
  - eapply perm_trans; eassumption.
Qed.

Lemma nth_error_combine {X Y : Type} (l1 : list X) (l2 : list Y) (i : nat)
  (a : X) (b : Y) :
  nth_error l1 i = Some a -> nth_error l2 i = Some b ->
  In (a, b) (combine l1 l2).
Proof.
  revert l1 l2. induction i as [|i IH]; intros [|x l1] [|y l2] H1 H2;
    simpl in *; try discriminate.
  - injection H1 as ->. injection H2 as ->. left. reflexivity.
  - right. apply IH; assumption.
Qed.

Lemma In_combine_nth_error {X Y : Type} (l1 : list X) (l2 : list Y) (a : X)
  (b : Y) :
  In (a, b) (combine l1 l2) ->
  exists i, nth_error l1 i = Some a /\ nth_error l2 i = Some b.
Proof.
  revert l2. induction l1 as [|x l1 IH]; intros [|y l2] H; simpl in H;
    try contradiction.
  destruct H as [H|H].
  - injection H as -> ->. exists 0%nat. split; reflexivity.
  - destruct (IH l2 H) as (i & H1 & H2). exists (S i). split; assumption.
Qed.

Section GroupFacts.

Import Dashboard.

Variable sort_values : DataFrame -> DataFrame.
Hypothesis sort_values_spec : sorts_by_entry_time sort_values.

Lemma option_eqb_eq {T : Type} (eqb : T -> T -> bool) :
  (forall a b, eqb a b = true <-> a = b) ->
  forall x y, option_eqb eqb x y = true <-> x = y.
Proof.
  intros Heq [a|] [b|]; simpl; try (split; intros; discriminate || reflexivity).
  rewrite Heq. split; [intros ->; reflexivity|intros H; injection H; auto].
Qed.

Lemma key_eqb_eq (k1 k2 : Key) : key_eqb k1 k2 = true <-> k1 = k2.
Proof.
  destruct k1 as [[[d1 t1] s1] x1], k2 as [[[d2 t2] s2] x2].
  unfold key_eqb. rewrite !andb_true_iff.
  rewrite (option_eqb_eq Z.eqb Z.eqb_eq).
  rewrite !(option_eqb_eq String.eqb String.eqb_eq).
  split.
  - intros [[[-> ->] ->] ->]. reflexivity.
  - intros H. injection H as -> -> -> ->. repeat split.
Qed.

Lemma has_action_exclusive (ir : nat * LedgerRow) :
  has_action "BOT" ir = true -> has_action "SLD" ir = false.
Proof.
  unfold has_action. destruct (entry_action (snd ir)) as [a|]; [|discriminate].
  intros H. apply String.eqb_eq in H. subst a. reflexivity.
Qed.

Lemma entry_time_leb_total (a b : nat * LedgerRow) :
  entry_time_leb a b = true \/ entry_time_leb b a = true.
Proof.
  unfold entry_time_leb.
  destruct (entry_time (snd a)) as [x|], (entry_time (snd b)) as [y|]; auto.
  rewrite !Z.leb_le. lia.
Qed.

Lemma entry_time_leb_trans (a b c : nat * LedgerRow) :
  entry_time_leb a b = true -> entry_time_leb b c = true ->
  entry_time_leb a c = true.
Proof.
  unfold entry_time_leb.
  destruct (entry_time (snd a)) as [x|], (entry_time (snd b)) as [y|],
    (entry_time (snd c)) as [z|]; auto; try discriminate.
  rewrite !Z.leb_le. lia.
Qed.

Lemma prepare_NoDup (rows : list LedgerRow) : NoDup (map fst (prepare rows)).
Proof.
  unfold prepare. rewrite reset_profit_labels.
  apply le_count_NoDup with (l := map fst (read_csv rows)).
  - apply le_count_filter.
  - unfold read_csv. rewrite map_fst_combine by apply length_seq.
    apply seq_NoDup.
Qed.

Lemma prepare_reset (rows : list LedgerRow) :
  reset_profit (prepare rows) = prepare rows.
Proof. apply reset_profit_twice. Qed.

(** The frame before the pairing does not depend on the profits read. *)
Lemma prepare_profit_independent (rows rows' : list LedgerRow) :
  map (with_profit 0) rows' = map (with_profit 0) rows ->
  prepare rows' = prepare rows.
Proof.
  intros H.
  assert (forall rows (labels : list nat),
            reset_profit (dropna_date (combine labels rows))
            = reset_profit
                (dropna_date (combine labels (map (with_profit 0) rows))))
    as Hreset.
  { clear. induction rows as [|r rows IH]; intros [|i labels];
      try reflexivity.
    simpl. destruct (present (date r)); simpl; rewrite IH; reflexivity. }
  unfold prepare, read_csv.
  rewrite (Hreset rows), (Hreset rows').
  rewrite <- (length_map (with_profit 0) rows).
  rewrite <- (length_map (with_profit 0) rows').
  rewrite H. reflexivity.
Qed.

Lemma sort_values_In (group : DataFrame) (ir : nat * LedgerRow) :
  In ir (sort_values group) <-> In ir group.
Proof.
  destruct (sort_values_spec group) as [Hp _]. split; apply Permutation_in.
  - exact Hp.
  - apply Permutation_sym, Hp.
Qed.

Lemma pair_labels (l1 l2 : DataFrame) :
  map fst (flat_map pair_assignments (combine l1 l2))
  = interleave (map fst l1) (map fst l2).
Proof.
  revert l2. induction l1 as [|a l1 IH]; intros [|b l2]; simpl;
    try reflexivity.
  rewrite IH. reflexivity.
Qed.

Lemma group_labels (group : DataFrame) :
  le_count
    (map fst
       (flat_map pair_assignments
          (combine (bot_rows sort_values group) (sld_rows sort_values group))))
    (map fst group).
Proof.
  rewrite pair_labels.
  eapply le_count_trans; [apply le_count_interleave|].
  eapply le_count_trans.
  - unfold bot_rows, sld_rows.
    apply (le_count_two_filters fst (has_action "BOT") (has_action "SLD")).
    apply has_action_exclusive.
  - apply le_count_perm, Permutation_map, (proj1 (sort_values_spec group)).
Qed.

Lemma flat_map_labels (groups : list (Key * DataFrame)) :
  flat_map (fun g => map fst (snd g)) groups
  = map fst (List.concat (map snd groups)).
Proof.
  induction groups as [|g groups IH]; simpl; [reflexivity|].
  rewrite map_app, IH. reflexivity.
Qed.

Lemma groups_labels (df : DataFrame) (groups : list (Key * DataFrame)) :
  Permutation groups (groupby df) ->
  le_count (flat_map (fun g => map fst (snd g)) groups) (map fst df).
Proof.
  intros Hp.
  eapply le_count_trans;
    [apply le_count_perm, (perm_flat_map _ _ _ Hp)|].
  rewrite flat_map_labels.
  eapply le_count_trans; [|apply (le_count_filter fst key_complete)].
  apply le_count_perm, Permutation_map.
  apply (group_by_perm key_eqb key_eqb_eq).
Qed.

Lemma assignments_NoDup (df : DataFrame) (groups : list (Key * DataFrame)) :
  Permutation groups (groupby df) -> NoDup (map fst df) ->
  NoDup (map fst (assignments sort_values groups)).
Proof.
  intros Hp Hn. eapply le_count_NoDup; [|exact Hn].
  eapply le_count_trans; [|apply (groups_labels df groups Hp)].
  unfold assignments. rewrite map_flat_map.
  apply le_count_flat_map. intros g _. apply group_labels.
Qed.

End GroupFacts.

(** The stable sort is a sort of the kind the pairing asks for. *)
Lemma stable_sort_values_sorts :
  Dashboard.sorts_by_entry_time Dashboard.stable_sort_values.
Proof.
  intros group. split; [apply stable_sort_perm|].
  apply stable_sort_sorted.
  - apply entry_time_leb_total.
  - apply entry_time_leb_trans.
Qed.

Section Repairing.

Import Dashboard.

Variable sort_values : DataFrame -> DataFrame.
Hypothesis sort_values_spec : sorts_by_entry_time sort_values.

Lemma In_assignments (groups : list (Key * DataFrame)) (idx : nat)
  (p : float) :
  In (idx, p) (assignments sort_values groups) <->
  exists k g b s,
    In (k, g) groups
    /\ In (b, s) (combine (bot_rows sort_values g) (sld_rows sort_values g))
    /\ p = pair_profit b s /\ (idx = fst b \/ idx = fst s).
Proof.
  unfold assignments. rewrite in_flat_map. split.
  - intros ([k g] & Hg & H). simpl in H. apply in_flat_map in H.
    destruct H as ([b s] & Hbs & H). simpl in H.
    exists k, g, b, s. repeat split; try assumption.
    + destruct H as [H|[H|[]]]; injection H as _ <-; reflexivity.
    + destruct H as [H|[H|[]]]; injection H as <- _; auto.
  - intros (k & g & b & s & Hg & Hbs & -> & Hidx).
    exists (k, g). split; [exact Hg|]. simpl. apply in_flat_map.
    exists (b, s). split; [exact Hbs|]. simpl.
    destruct Hidx as [-> | ->]; auto.
Qed.

Lemma In_group_frame (df : DataFrame) (groups : list (Key * DataFrame))
  (k : Key) (g : DataFrame) (ir : nat * LedgerRow) :
  Permutation groups (groupby df) -> In (k, g) groups -> In ir g ->
  In ir df /\ key_complete ir = true /\ key_of ir = k.
Proof.
  intros Hp Hg Hir. apply (Permutation_in _ Hp) in Hg.
  destruct (group_by_In key_eqb key_eqb_eq key_of _ k g ir Hg Hir)
    as [Hin Hk].
  apply filter_In in Hin. tauto.
Qed.

(** C8. The frame the pairing starts from has every profit reset to 0 and
    does not depend on the profits read from the ledger.  Its rows with a
    complete key are grouped by (date, trade_type, symbol, strikes); each
    group is sorted by entry_time; the i-th BOT row and the i-th SLD row of
    a group both get the profit [(BOT.entry_price - SLD.entry_price) * 100];
    every other row ends with profit 0.  This holds in whatever order the
    groups are visited, and for every sort by entry_time: the order of rows
    of equal entry time is the one the sort gives them, and is not fixed
    here. *)
Theorem repairing_profit (rows : list LedgerRow)
  (groups : list (Key * DataFrame)) :
  let df := prepare rows in
  let out := pair_groups sort_values groups df in
  Permutation groups (groupby df) ->
  (reset_profit out = df /\ NoDup (map fst out))
  /\ NoDup (map fst groups)
  /\ (forall k g ir, In (k, g) groups -> In ir g ->
        In ir df /\ key_complete ir = true /\ key_of ir = k)
  /\ (forall ir, In ir df -> key_complete ir = true ->
        exists g, In (key_of ir, g) groups /\ In ir g)
  /\ (forall k g, In (k, g) groups ->
        Permutation (sort_values g) g
        /\ StronglySorted (fun a b => entry_time_leb a b = true)
             (sort_values g))
  /\ (forall k g i b s,
        In (k, g) groups ->
        nth_error (bot_rows sort_values g) i = Some b ->
        nth_error (sld_rows sort_values g) i = Some s ->
        In (fst b, with_profit (pair_profit b s) (snd b)) out
        /\ In (fst s, with_profit (pair_profit b s) (snd s)) out)
  /\ (forall idx r,
        In (idx, r) out ->
        (forall k g i b s,
           In (k, g) groups ->
           nth_error (bot_rows sort_values g) i = Some b ->
           nth_error (sld_rows sort_values g) i = Some s ->
           idx <> fst b /\ idx <> fst s) ->
        profit r = 0%float)
  /\ (forall rows',
        map (with_profit 0) rows' = map (with_profit 0) rows ->
        prepare rows' = df
        /\ load_data sort_values rows' = load_data sort_values rows).
Proof.
  intros df out Hp.
  assert (out = assign_all (assignments sort_values groups) df) as Hout
    by apply pair_groups_assign.
  assert (NoDup (map fst df)) as Hdf by apply prepare_NoDup.
  assert (NoDup (map fst (assignments sort_values groups))) as Hassign
    by (apply (assignments_NoDup sort_values sort_values_spec df);
        assumption).
  assert (reset_profit out = df) as Hreset.
  { rewrite Hout, assign_all_reset. apply prepare_reset. }
  split.
  { split; [exact Hreset|].
    rewrite <- (reset_profit_labels out), Hreset. exact Hdf. }
  split.
  { apply (Permutation_NoDup (Permutation_sym (Permutation_map fst Hp))).
    apply (group_by_NoDup key_eqb key_eqb_eq). }
  split; [intros k g ir; apply In_group_frame; exact Hp|].
  split.
  { intros ir Hir Hc.
    assert (In ir (List.concat (map snd (groupby df)))) as Hin.
    { apply (Permutation_in _
               (Permutation_sym (group_by_perm key_eqb key_eqb_eq key_of _))).
      apply filter_In. split; assumption. }
    apply in_concat in Hin. destruct Hin as (g & Hg & Hirg).
    apply in_map_iff in Hg. destruct Hg as ([k g'] & Heq & Hg).
    simpl in Heq. subst g'. exists g.
    destruct (group_by_In key_eqb key_eqb_eq key_of _ k g ir Hg Hirg)
      as [_ ->].
    split; [|exact Hirg].
    apply (Permutation_in _ (Permutation_sym Hp)). exact Hg. }
  split.
  { intros k g _. apply sort_values_spec. }
  split.
  { intros k g i b s Hg Hb Hs.
    assert (In (b, s)
              (combine (bot_rows sort_values g) (sld_rows sort_values g)))
      as Hbs
      by (apply (nth_error_combine _ _ i); assumption).
    assert (forall ir, In ir (sort_values g) -> In ir df) as Hsub.
    { intros ir Hir.
      apply (proj1 (sort_values_In sort_values sort_values_spec g ir)) in Hir.
      apply (In_group_frame df groups k g ir Hp Hg Hir). }
    apply nth_error_In in Hb, Hs.
    apply filter_In in Hb, Hs. destruct Hb as [Hb _], Hs as [Hs _].
    apply Hsub in Hb, Hs.
    rewrite Hout. split; apply assign_all_assigned; try assumption.
    - apply In_assignments. exists k, g, b, s. auto.
    - destruct b. exact Hb.
    - apply In_assignments. exists k, g, b, s. auto.
    - destruct s. exact Hs. }
  split.
  { intros idx r Hr Hun. rewrite Hout in Hr.
    destruct (in_dec Nat.eq_dec idx (map fst (assignments sort_values groups)))
      as [Hin|Hnin].
    - exfalso. apply in_map_iff in Hin. destruct Hin as ([i p] & Hi & Hin).
      simpl in Hi. subst i. apply In_assignments in Hin.
      destruct Hin as (k & g & b & s & Hg & Hbs & _ & Hidx).
      apply In_combine_nth_error in Hbs. destruct Hbs as (i & Hb & Hs).
      destruct (Hun k g i b s Hg Hb Hs) as [H1 H2].
      destruct Hidx; contradiction.
    - apply assign_all_other in Hr; [|exact Hnin].
      unfold df, prepare, reset_profit in Hr. apply in_map_iff in Hr.
      destruct Hr as (ir & Heq & _). injection Heq as _ <-. reflexivity. }
  intros rows' H.
  assert (prepare rows' = df) as Hprep
    by (apply prepare_profit_independent; exact H).
  split; [exact Hprep|].
  unfold load_data. rewrite Hprep. reflexivity.
Qed.

End Repairing.

(** The sample ledger, whose entry times are all different: rows 2 and 3 are
    the earliest BOT and SLD rows and get (2.00 - 0.50) * 100; rows 1 and 0
    are the second ones and get (3.50 - 1.00) * 100; the profits 7, 8, 9, 3
    read from the ledger are gone. *)
Lemma repairing_profit_witness :
  In (1%nat, Dashboard.sample_row "BOT" 20 3.5 250)
    (Dashboard.load_data Dashboard.stable_sort_values Dashboard.sample_ledger)
  /\ In (0%nat, Dashboard.sample_row "SLD" 30 1 250)
       (Dashboard.load_data Dashboard.stable_sort_values
          Dashboard.sample_ledger).
Proof.
  refine (proj1 (proj2 (proj2 (proj2 (proj2 (proj2
            (repairing_profit Dashboard.stable_sort_values
               stable_sort_values_sorts Dashboard.sample_ledger
               (Dashboard.groupby (Dashboard.prepare Dashboard.sample_ledger))
               (Permutation_refl _)))))))
            (Some 20240105, Some "Bull Put", Some "SPX", Some "90/95")
            (Dashboard.prepare Dashboard.sample_ledger) 1%nat
            (1%nat, Dashboard.sample_row "BOT" 20 3.5 0)
            (0%nat, Dashboard.sample_row "SLD" 30 1 0) _ _ _).
  - left. reflexivity.
  - reflexivity.
  - reflexivity.
Defined.

Lemma repairing_sample :
  map (fun ir => (fst ir, Dashboard.profit (snd ir)))
    (Dashboard.load_data Dashboard.stable_sort_values Dashboard.sample_ledger)
  = [ (0%nat, 250%float); (1%nat, 250%float); (2%nat, 150%float);
      (3%nat, 150%float); (4%nat, 0%float) ].
Proof. reflexivity. Qed.

(** * Further properties of the code *)

(** ** What the grouping loop computes *)

Section GroupSpec.

Context {K V : Type} (eqb : K -> K -> bool).
Hypothesis eqb_eq : forall a b, eqb a b = true <-> a = b.

Lemma eqb_false_iff (a b : K) : eqb a b = false <-> a <> b.
Proof.
  rewrite <- (eqb_eq a b). destruct (eqb a b); split; congruence.
Qed.

(** The entries of the dictionary after one [append]. *)
Lemma dict_append_In (k0 : K) (v : V) (d : list (K * list V)) (k : K)
  (vs : list V) :
  NoDup (map fst d) ->
  In (k, vs) (dict_append eqb k0 v d) ->
  (k <> k0 /\ In (k, vs) d)
  \/ (k = k0 /\ exists vs0, In (k, vs0) d /\ vs = vs0 ++ [v])
  \/ (k = k0 /\ vs = [v] /\ ~ In k0 (map fst d)).
Proof.
  induction d as [|[k' l] d IH]; simpl; intros Hn Hin.
  - destruct Hin as [Hin|[]]. injection Hin as <- <-. right. right. auto.
  - apply NoDup_cons_iff in Hn. destruct Hn as [Hk' Hn].
    destruct (eqb k' k0) eqn:E.
    + apply eqb_eq in E. subst k'. destruct Hin as [Hin|Hin].
      * injection Hin as <- <-. right. left. split; [reflexivity|].
        exists l. split; [left; reflexivity|reflexivity].
      * left. split; [|right; exact Hin].
        intros ->. apply Hk'. apply (in_map fst) in Hin. exact Hin.
    + apply eqb_false_iff in E. destruct Hin as [Hin|Hin].
      * injection Hin as <- <-. left. split; [exact E|left; reflexivity].
      * destruct (IH Hn Hin) as [[H1 H2]|[(H1 & vs0 & H2 & H3)|(H1 & H2 & H3)]].
        -- left. split; [exact H1|right; exact H2].
        -- right. left. split; [exact H1|]. exists vs0. split; auto.
        -- right. right. repeat split; try assumption.
           intros [Hk|Hk]; [congruence|contradiction].
Qed.

Lemma dict_append_files (key : V -> K) (seen : list V) (v : V)
  (d : list (K * list V)) :
  files eqb key seen d ->
  files eqb key (seen ++ [v]) (dict_append eqb (key v) v d).
Proof.
  intros (Hn & Hd & Hs). split; [apply dict_append_NoDup; assumption|]. split.
  - intros k vs Hin. rewrite filter_app. simpl.
    destruct (dict_append_In _ _ _ _ _ Hn Hin)
      as [[H1 H2]|[(H1 & vs0 & H2 & H3)|(H1 & H2 & H3)]].
    + apply eqb_false_iff in H1. rewrite H1, app_nil_r. apply Hd, H2.
    + subst k vs. rewrite (eqb_refl eqb eqb_eq).
      destruct (Hd _ _ H2) as [<- _]. split; [reflexivity|].
      destruct vs0; discriminate.
    + subst k vs. rewrite (eqb_refl eqb eqb_eq). split; [|discriminate].
      assert (filter (fun w => eqb (key v) (key w)) seen = []) as ->;
        [|reflexivity].
      destruct (filter _ seen) as [|w ws] eqn:E; [reflexivity|exfalso].
      assert (In w (filter (fun w => eqb (key v) (key w)) seen)) as Hw
        by (rewrite E; left; reflexivity).
      apply filter_In in Hw. destruct Hw as [Hw Hk]. apply eqb_eq in Hk.
      apply H3. rewrite Hk. apply Hs, Hw.
  - intros w Hw. rewrite dict_append_keys.
    apply in_app_or in Hw. destruct Hw as [Hw|[<-|[]]].
    + destruct (existsb _ _); [|apply in_or_app; left]; apply Hs, Hw.
    + destruct (existsb _ _) eqn:E.
      * apply existsb_exists in E. destruct E as (k & Hk & E).
        apply eqb_eq in E. subst k. exact Hk.
      * apply in_or_app. right. left. reflexivity.
Qed.

Lemma group_by_files (key : V -> K) (l : list V) :
  files eqb key l (group_by eqb key l).
Proof.
  assert (forall l seen d, files eqb key seen d ->
            files eqb key (seen ++ l)
              (fold_left (fun d v => dict_append eqb (key v) v d) l d)) as H.
  { clear l. induction l as [|v l IH]; intros seen d Hf; simpl.
    - rewrite app_nil_r. exact Hf.
    - replace (seen ++ v :: l) with ((seen ++ [v]) ++ l)
        by (rewrite <- app_assoc; reflexivity).
      apply IH, dict_append_files, Hf. }
  apply (H l [] []). split; [constructor|]. split; [intros k vs []|intros v []].
Qed.

Lemma group_by_length (key : V -> K) (l : list V) :
  (List.length (group_by eqb key l) <= List.length l)%nat.
Proof.
  rewrite <- (Permutation_length (group_by_perm eqb eqb_eq key l)).
  pose proof (group_by_keyed eqb eqb_eq key l) as Hk. unfold keyed in Hk.
  induction Hk as [|[k vs] d [Hne _] _ IH]; simpl; [lia|].
  rewrite length_app. simpl in Hne. destruct vs; [contradiction|simpl; lia].
Qed.

End GroupSpec.

(** ** Sorting by an integer key, and grouping a sorted list *)

Section SortedGroups.

Context {V : Type} (key : V -> Z).

(** The sort is stable: the elements of one key keep their order. *)
Lemma insert_sorted_stable (t : Z) (x : V) (l : list V) :
  filter (fun v => t =? key v) (insert_sorted (fun a b => key a <=? key b) x l)
  = filter (fun v => t =? key v) (x :: l).
Proof.
  induction l as [|y l IH]; [reflexivity|].
  simpl insert_sorted. destruct (key x <=? key y) eqn:E; [reflexivity|].
  apply Z.leb_gt in E.
  cbn [filter]. rewrite IH. cbn [filter].
  destruct (Z.eqb_spec t (key y)), (Z.eqb_spec t (key x)); try reflexivity.
  lia.
Qed.

Lemma stable_sort_stable (t : Z) (l : list V) :
  filter (fun v => t =? key v) (stable_sort (fun a b => key a <=? key b) l)
  = filter (fun v => t =? key v) l.
Proof.
  induction l as [|x l IH]; [reflexivity|].
  simpl stable_sort. rewrite insert_sorted_stable. simpl. rewrite IH.
  reflexivity.
Qed.

Lemma stable_sort_by_key_sorted (l : list V) :
  StronglySorted (fun a b => key a <= key b)
    (stable_sort (fun a b => key a <=? key b) l).
Proof.
  apply StronglySorted_impl
    with (R := fun a b => (key a <=? key b) = true).
  - intros a b. apply Z.leb_le.
  - apply stable_sort_sorted.
    + intros x y. rewrite !Z.leb_le. lia.
    + intros x y z. rewrite !Z.leb_le. lia.
Qed.

(** A sorted list is left as it is. *)
Lemma stable_sort_sorted_id (l : list V) :
  StronglySorted (fun a b => key a <= key b) l ->
  stable_sort (fun a b => key a <=? key b) l = l.
Proof.
  induction 1 as [|x l Hl IH Hx]; [reflexivity|].
  simpl. rewrite IH. destruct l as [|y l]; [reflexivity|].
  simpl. apply Forall_inv in Hx. apply Z.leb_le in Hx. rewrite Hx.
  reflexivity.
Qed.

(** Appending under a key that is not below the keys of the dictionary,
    which are in increasing order: the element goes last. *)
Lemma dict_append_last (k0 : Z) (v : V) (d : list (Z * list V)) :
  StronglySorted Z.lt (map fst d) ->
  (forall k, In k (map fst d) -> k <= k0) ->
  List.concat (map snd (dict_append Z.eqb k0 v d))
  = List.concat (map snd d) ++ [v]
  /\ StronglySorted Z.lt (map fst (dict_append Z.eqb k0 v d))
  /\ (forall k, In k (map fst (dict_append Z.eqb k0 v d)) -> k <= k0).
Proof.
  induction d as [|[k' vs] d IH]; simpl; intros Hs Hb.
  - repeat split.
    + repeat constructor.
    + intros k [<-|[]]. lia.
  - inversion Hs as [|? ? Hs' Hk']; subst.
    destruct (Z.eqb_spec k' k0) as [->|Hne].
    + destruct d as [|[k'' vs'] d].
      * simpl. rewrite !app_nil_r. repeat split; assumption.
      * exfalso. apply Forall_inv in Hk'. simpl in Hk'.
        specialize (Hb k'' (or_intror (or_introl eq_refl))). lia.
    + destruct IH as (Hc & Hs'' & Hb'); [exact Hs'|auto|].
      simpl. rewrite Hc, app_assoc. repeat split.
      * constructor; [exact Hs''|].
        apply Forall_forall. intros k Hk.
        rewrite dict_append_keys in Hk.
        assert (k' < k0) by (specialize (Hb k' (or_introl eq_refl)); lia).
        rewrite Forall_forall in Hk'.
        destruct (existsb _ _); [apply Hk', Hk|].
        apply in_app_or in Hk. destruct Hk as [Hk|[<-|[]]];
          [apply Hk', Hk|assumption].
      * intros k [<-|Hk]; [apply Hb; left; reflexivity|apply Hb', Hk].
Qed.

(** Grouping a sorted list cuts it into its runs of equal keys. *)
Lemma group_by_sorted (l : list V) :
  StronglySorted (fun a b => key a <= key b) l ->
  List.concat (map snd (group_by Z.eqb key l)) = l
  /\ StronglySorted Z.lt (map fst (group_by Z.eqb key l)).
Proof.
  assert (forall l d,
            StronglySorted (fun a b => key a <= key b) l ->
            StronglySorted Z.lt (map fst d) ->
            (forall k v, In k (map fst d) -> In v l -> k <= key v) ->
            let d' := fold_left (fun d v => dict_append Z.eqb (key v) v d) l d
            in
            List.concat (map snd d') = List.concat (map snd d) ++ l
            /\ StronglySorted Z.lt (map fst d')) as H.
  { clear l. induction l as [|v l IH]; intros d Hl Hd Hb; simpl.
    - rewrite app_nil_r. split; [reflexivity|exact Hd].
    - inversion Hl as [|? ? Hl' Hv]; subst.
      destruct (dict_append_last (key v) v d Hd) as (Hc & Hs & Hb').
      { intros k Hk. apply (Hb k v Hk). left. reflexivity. }
      destruct (IH (dict_append Z.eqb (key v) v d) Hl' Hs) as [Hc' Hs'].
      { intros k w Hk Hw. rewrite Forall_forall in Hv.
        specialize (Hv w Hw). specialize (Hb' k Hk). lia. }
      split; [|exact Hs']. rewrite Hc', Hc, <- app_assoc. reflexivity. }
  intros Hl. apply (H l [] Hl); [constructor|intros k v []].
Qed.

End SortedGroups.

(** ** Orders and their time buckets *)

(** X1. Grouping by permanent id: the keys are the permanent ids of the
    executions, each once; the group of an id holds all the executions of
    that id, and only those, in the order of the feed; no group is empty,
    and no execution is lost or doubled. *)
Theorem orders_hold_their_fills (executions : list Fill) :
  let orders := trades_by_perm_id executions in
  NoDup (map fst orders)
  /\ (forall perm_id, In perm_id (map fst orders)
        <-> exists e, In e executions /\ fill_permId e = perm_id)
  /\ (forall perm_id execs, In (perm_id, execs) orders ->
        execs = filter (fun e => perm_id =? fill_permId e) executions
        /\ execs <> [])
  /\ Permutation (List.concat (map snd orders)) executions
  /\ (List.length orders <= List.length executions)%nat.
Proof.
  intros orders.
  destruct (group_by_files Z.eqb Z.eqb_eq fill_permId executions)
    as (Hn & Hd & Hs).
  split; [exact Hn|]. split.
  { intros perm_id. split.
    - intros Hk. apply in_map_iff in Hk. destruct Hk as ([k execs] & <- & Hin).
      destruct (Hd _ _ Hin) as [Hf Hne]. destruct execs as [|e execs'];
        [contradiction|].
      assert (In e (e :: execs')) as He by (left; reflexivity).
      rewrite Hf in He. apply filter_In in He. destruct He as [He Hk].
      apply Z.eqb_eq in Hk. exists e. split; [exact He|symmetry; exact Hk].
    - intros (e & He & <-). apply Hs, He. }
  split; [exact Hd|]. split.
  - apply (group_by_perm Z.eqb Z.eqb_eq).
  - apply (group_by_length Z.eqb Z.eqb_eq).
Qed.

Lemma times_files (execs : list Fill) (t : Z) (bucket : list Fill) :
  In (t, bucket) (times execs) ->
  bucket = filter (fun e => t =? fill_time e) execs /\ bucket <> [].
Proof.
  intros Hin.
  destruct (group_by_files Z.eqb Z.eqb_eq fill_time (sort_by_time execs))
    as (_ & Hd & _).
  destruct (Hd _ _ Hin) as [Hf Hne]. split; [|exact Hne].
  rewrite Hf. apply (stable_sort_stable fill_time).
Qed.

Lemma times_keys (execs : list Fill) (e : Fill) :
  In e execs -> In (fill_time e) (map fst (times execs)).
Proof.
  intros He.
  destruct (group_by_files Z.eqb Z.eqb_eq fill_time (sort_by_time execs))
    as (_ & _ & Hs).
  apply Hs. apply stable_sort_In. exact He.
Qed.

Lemma times_sorted (execs : list Fill) :
  List.concat (map snd (times execs)) = sort_by_time execs
  /\ StronglySorted Z.lt (map fst (times execs)).
Proof.
  apply (group_by_sorted fill_time), (stable_sort_by_key_sorted fill_time).
Qed.

(** X2. The time buckets of an order: put end to end they are the fills
    sorted by time; their timestamps increase strictly; the bucket of a
    timestamp holds all the fills of that timestamp, in the order of the
    feed, and is not empty; the opening bucket is the one of the earliest
    timestamp. *)
Theorem time_buckets_chronological (execs : list Fill) :
  List.concat (time_groups execs) = sort_by_time execs
  /\ Permutation (sort_by_time execs) execs
  /\ StronglySorted (fun a b => fill_time a <= fill_time b)
       (sort_by_time execs)
  /\ StronglySorted Z.lt (map fst (times execs))
  /\ (forall t bucket, In (t, bucket) (times execs) ->
        bucket = filter (fun e => t =? fill_time e) execs /\ bucket <> [])
  /\ (forall e, In e execs -> In (fill_time e) (map fst (times execs)))
  /\ (forall opening_execs later,
        time_groups execs = opening_execs :: later ->
        exists t0,
          opening_execs = filter (fun e => t0 =? fill_time e) execs
          /\ forall e, In e execs -> t0 <= fill_time e).
Proof.
  destruct (times_sorted execs) as [Hc Hs].
  split; [exact Hc|]. split; [apply stable_sort_perm|].
  split; [apply (stable_sort_by_key_sorted fill_time)|].
  split; [exact Hs|]. split; [apply times_files|].
  split; [apply times_keys|].
  intros opening_execs later Htg. unfold time_groups in Htg.
  destruct (times execs) as [|[t0 b0] rest] eqn:E; [discriminate|].
  simpl in Htg. injection Htg as <- _. exists t0. split.
  - apply (times_files execs t0 b0). rewrite E. left. reflexivity.
  - intros e He. apply times_keys in He. rewrite E in He. simpl in He, Hs.
    destruct He as [<-|He]; [lia|].
    inversion Hs as [|? ? _ Hlt]; subst. rewrite Forall_forall in Hlt.
    specialize (Hlt _ He). lia.
Qed.

(** An order has two time buckets or more exactly when two of its fills
    differ in their timestamps. *)
Lemma two_buckets_iff (execs : list Fill) :
  (exists opening_execs closing_execs later,
     time_groups execs = opening_execs :: closing_execs :: later)
  <-> exists e1 e2,
        In e1 execs /\ In e2 execs /\ fill_time e1 <> fill_time e2.
Proof.
  destruct (times_sorted execs) as [_ Hs].
  pose proof (times_files execs) as Hf. pose proof (times_keys execs) as Hk.
  unfold time_groups. destruct (times execs) as [|[t1 b1] [|[t2 b2] rest]].
  - split; [intros (? & ? & ? & H); discriminate|].
    intros (e1 & _ & H1 & _). destruct (Hk e1 H1).
  - split; [intros (? & ? & ? & H); discriminate|].
    intros (e1 & e2 & H1 & H2 & Hne). exfalso. apply Hne.
    destruct (Hk e1 H1) as [<-|[]]. destruct (Hk e2 H2) as [<-|[]].
    reflexivity.
  - split; [intros _|intros _; simpl; eauto].
    assert (exists e, In e execs /\ fill_time e = t1) as (e1 & H1 & <-).
    { destruct (Hf t1 b1 (or_introl eq_refl)) as [Hb Hne].
      destruct b1 as [|e b1]; [contradiction|]. exists e.
      assert (In e (e :: b1)) as He by (left; reflexivity).
      rewrite Hb in He. apply filter_In in He. destruct He as [He Ht].
      apply Z.eqb_eq in Ht. auto. }
    assert (exists e, In e execs /\ fill_time e = t2) as (e2 & H2 & <-).
    { destruct (Hf t2 b2 (or_intror (or_introl eq_refl))) as [Hb Hne].
      destruct b2 as [|e b2]; [contradiction|]. exists e.
      assert (In e (e :: b2)) as He by (left; reflexivity).
      rewrite Hb in He. apply filter_In in He. destruct He as [He Ht].
      apply Z.eqb_eq in Ht. auto. }
    exists e1, e2. repeat split; try assumption.
    simpl in Hs. inversion Hs as [|? ? _ Hlt]; subst.
    apply Forall_inv in Hlt. lia.
Qed.

(** The time buckets of two runs of fills, the first of one timestamp and
    the second of a later one. *)
Lemma times_two_runs (t1 t2 : Z) (o c : list Fill) :
  (forall e, In e o -> fill_time e = t1) ->
  (forall e, In e c -> fill_time e = t2) ->
  t1 < t2 -> o <> [] -> c <> [] ->
  times (o ++ c) = [(t1, o); (t2, c)].
Proof.
  intros Ho Hc Hlt Hone Hcne. unfold times, sort_by_time.
  rewrite (stable_sort_sorted_id fill_time).
  - unfold group_by. rewrite fold_left_app.
    fold (group_by Z.eqb fill_time o).
    rewrite (group_by_one_key Z.eqb Z.eqb_eq fill_time o t1 Ho).
    destruct o as [|e0 o']; [contradiction|].
    assert (forall l acc, (forall e, In e l -> fill_time e = t2) ->
              fold_left (fun d v => dict_append Z.eqb (fill_time v) v d) l
                [(t1, e0 :: o'); (t2, acc)]
              = [(t1, e0 :: o'); (t2, acc ++ l)]) as Hloop.
    { induction l as [|v l IH]; intros acc Hl; simpl.
      - rewrite app_nil_r. reflexivity.
      - rewrite (Hl v (or_introl eq_refl)).
        destruct (Z.eqb_spec t1 t2); [lia|]. rewrite Z.eqb_refl.
        rewrite IH by (intros w Hw; apply Hl; right; exact Hw).
        rewrite <- app_assoc. reflexivity. }
    destruct c as [|v c']; [contradiction|]. simpl.
    rewrite (Hc v (or_introl eq_refl)).
    destruct (Z.eqb_spec t1 t2); [lia|].
    apply (Hloop c' [v]). intros w Hw. apply Hc. right. exact Hw.
  - clear Hone Hcne. induction o as [|x o IH]; simpl.
    + induction c as [|y c IHc]; constructor.
      * apply IHc. intros e He. apply Hc. right. exact He.
      * apply Forall_forall. intros z Hz.
        rewrite (Hc y (or_introl eq_refl)), (Hc z (or_intror Hz)). lia.
    + constructor.
      * apply IH. intros e He. apply Ho. right. exact He.
      * apply Forall_forall. intros z Hz.
        rewrite (Ho x (or_introl eq_refl)).
        apply in_app_or in Hz. destruct Hz as [Hz|Hz].
        -- rewrite (Ho z (or_intror Hz)). lia.
        -- rewrite (Hc z Hz). lia.
Qed.

Section OrderFacts.

Variable strftime_datetime : Z -> string.
Variable strftime_date : Z -> string.
Variable strategy : string.

(** X3. The row of an order is closed exactly when two fills of the order
    differ in their timestamps, and open exactly when all its fills carry
    one timestamp; there is no third status. *)
Theorem status_closed_iff_two_timestamps (execs : list Fill) (r : Row) :
  process_group strftime_datetime strftime_date strategy execs = Wrote r ->
  (col_status r = "closed"
   <-> exists e1 e2,
         In e1 execs /\ In e2 execs /\ fill_time e1 <> fill_time e2)
  /\ (col_status r = "open"
      <-> forall e1 e2,
            In e1 execs -> In e2 execs -> fill_time e1 = fill_time e2)
  /\ (col_status r = "open" \/ col_status r = "closed").
Proof.
  intros Hp. apply process_group_row in Hp.
  destruct Hp as (opening_execs & later & en & strikes & Htg & _ & _ & ->).
  pose proof (two_buckets_iff execs) as Htwo. rewrite Htg in Htwo.
  assert (col_status
            (make_row strftime_datetime strftime_date strategy opening_execs
               en strikes
               (outcome_of (entry_price en) (opening_execs :: later)))
          = match later with [] => "open" | _ :: _ => "closed" end) as Hst.
  { simpl. destruct later as [|closing_execs later']; [reflexivity|].
    unfold outcome_of. destruct (exit_of closing_execs). reflexivity. }
  rewrite Hst. clear Hst. destruct later as [|closing_execs later'].
  - assert (forall e1 e2, In e1 execs -> In e2 execs ->
                          fill_time e1 = fill_time e2) as Hsame.
    { intros e1 e2 H1 H2. destruct (Z.eq_dec (fill_time e1) (fill_time e2))
        as [Heq|Hne]; [exact Heq|].
      assert (exists e1 e2, In e1 execs /\ In e2 execs
                            /\ fill_time e1 <> fill_time e2) as Hex
        by (exists e1, e2; auto).
      apply Htwo in Hex. destruct Hex as (? & ? & ? & Hex). discriminate. }
    split; [|split; [|left; reflexivity]].
    + split; [discriminate|].
      intros (e1 & e2 & H1 & H2 & Hne). exfalso. apply Hne, Hsame; assumption.
    + split; [intros _; exact Hsame|reflexivity].
  - assert (exists e1 e2, In e1 execs /\ In e2 execs
                          /\ fill_time e1 <> fill_time e2) as Hex
      by (apply Htwo; eauto).
    split; [|split; [|right; reflexivity]].
    + split; [intros _; exact Hex|reflexivity].
    + split; [discriminate|].
      intros Hsame. exfalso. destruct Hex as (e1 & e2 & H1 & H2 & Hne).
      apply Hne, Hsame; assumption.
Qed.

(** X4. Only the two earliest time buckets of an order reach its row: the
    fills of every later timestamp change nothing. *)
Theorem later_buckets_ignored (execs opening_execs closing_execs : list Fill)
  (later : list (list Fill)) :
  time_groups execs = opening_execs :: closing_execs :: later ->
  time_groups (opening_execs ++ closing_execs)
  = [opening_execs; closing_execs]
  /\ process_group strftime_datetime strftime_date strategy execs
     = process_group strftime_datetime strftime_date strategy
         (opening_execs ++ closing_execs).
Proof.
  intros Htg.
  assert (time_groups (opening_execs ++ closing_execs)
          = [opening_execs; closing_execs]) as Htwo.
  { unfold time_groups in Htg.
    destruct (times execs) as [|[t1 o] [|[t2 c] rest]] eqn:E;
      try discriminate.
    simpl in Htg. injection Htg as <- <- _.
    destruct (times_sorted execs) as [_ Hs]. rewrite E in Hs. simpl in Hs.
    inversion Hs as [|? ? _ Hlt]; subst. apply Forall_inv in Hlt.
    assert (forall t b, In (t, b) (times execs) ->
              (forall e, In e b -> fill_time e = t) /\ b <> []) as Hb.
    { intros t b Hin. destruct (times_files execs t b Hin) as [Hf Hne].
      split; [|exact Hne]. intros e He. rewrite Hf in He.
      apply filter_In in He. destruct He as [_ Ht].
      apply Z.eqb_eq in Ht. symmetry. exact Ht. }
    rewrite E in Hb.
    destruct (Hb t1 o (or_introl eq_refl)) as [Ho Hone].
    destruct (Hb t2 c (or_intror (or_introl eq_refl))) as [Hc Hcne].
    unfold time_groups.
    rewrite (times_two_runs t1 t2 o c Ho Hc Hlt Hone Hcne). reflexivity. }
  split; [exact Htwo|].
  unfold process_group. rewrite Htg, Htwo. reflexivity.
Qed.

End OrderFacts.

Lemma status_closed_iff_two_timestamps_witness :
  exists r,
    process_group Py.str Py.str "ZeroTheta" closed_order = Wrote r
    /\ col_status r = "closed".
Proof.
  eexists. split; [reflexivity|].
  apply (status_closed_iff_two_timestamps Py.str Py.str "ZeroTheta"
           closed_order _ eq_refl).
  exists (fill_at (spx_put 95) 7 200 "BOT" 1),
         (fill_at spx_bag 7 100 "BOT" (-3.5)).
  split; [left; reflexivity|]. split; [right; left; reflexivity|].
  discriminate.
Defined.

Lemma later_buckets_ignored_witness :
  process_group Py.str Py.str "ZeroTheta" closed_order
  = process_group Py.str Py.str "ZeroTheta"
      [ fill_at spx_bag 7 100 "BOT" (-3.5);
        fill_at (spx_put 95) 7 200 "BOT" 1;
        fill_at (spx_put 90) 7 200 "SLD" 0.25 ].
Proof.
  exact (proj2 (later_buckets_ignored Py.str Py.str "ZeroTheta" closed_order
                  [fill_at spx_bag 7 100 "BOT" (-3.5)]
                  [ fill_at (spx_put 95) 7 200 "BOT" 1;
                    fill_at (spx_put 90) 7 200 "SLD" 0.25 ]
                  [[fill_at (spx_put 90) 7 300 "SLD" 4]] eq_refl)).
Defined.

(** ** Trade type *)

Lemma collect_rights_In (r : string) (l : list Fill) :
  In r (collect_rights l)
  <-> exists e, In e l /\ right (contract e) = Some r.
Proof.
  induction l as [|e l IH]; simpl.
  - split; [intros []|intros (e & [] & _)].
  - destruct (right (contract e)) as [r'|] eqn:E; simpl; rewrite IH; split.
    + intros [->|(e' & He' & Hr)]; [exists e; auto|exists e'; auto].
    + intros (e' & [<-|He'] & Hr); [left; congruence|right; exists e'; auto].
    + intros (e' & He' & Hr). exists e'. auto.
    + intros (e' & [<-|He'] & Hr); [congruence|exists e'; auto].
Qed.

Lemma existsb_right (r : string) (l : list Fill) :
  existsb (String.eqb r) (collect_rights l) = true
  <-> exists e, In e l /\ right (contract e) = Some r.
Proof.
  rewrite existsb_exists, <- collect_rights_In. split.
  - intros (x & Hx & E). apply String.eqb_eq in E. subst x. exact Hx.
  - intros H. exists r. split; [exact H|apply String.eqb_refl].
Qed.

(** X5. The trade type of an opening bucket is "Bull Put" exactly when one
    of its fills has the right P, whatever the other rights; "Bear Call"
    exactly when none has the right P and one has the right C; "unknown"
    exactly when no fill has the right P or C. *)
Theorem trade_type_by_right (opening_execs : list Fill) :
  (trade_type opening_execs = "Bull Put"
   <-> exists e, In e opening_execs /\ right (contract e) = Some "P")
  /\ (trade_type opening_execs = "Bear Call"
      <-> (forall e, In e opening_execs -> right (contract e) <> Some "P")
          /\ exists e, In e opening_execs /\ right (contract e) = Some "C")
  /\ (trade_type opening_execs = "unknown"
      <-> forall e, In e opening_execs ->
            right (contract e) <> Some "P" /\ right (contract e) <> Some "C").
Proof.
  pose proof (existsb_right "P" opening_execs) as HP.
  pose proof (existsb_right "C" opening_execs) as HC.
  unfold trade_type.
  destruct (existsb (String.eqb "P") (collect_rights opening_execs)) eqn:EP;
    [|destruct (existsb (String.eqb "C") (collect_rights opening_execs))
        eqn:EC].
  - assert (exists e, In e opening_execs /\ right (contract e) = Some "P")
      as HexP by (apply HP; reflexivity).
    split; [tauto|]. split; (split; [discriminate|]).
    + intros [Hno _]. destruct HexP as (e & He & Hr). destruct (Hno e He Hr).
    + intros Hno. destruct HexP as (e & He & Hr).
      destruct (Hno e He) as [H _]. destruct (H Hr).
  - assert (forall e, In e opening_execs -> right (contract e) <> Some "P")
      as HnoP.
    { intros e He Hr. assert (false = true) by (apply HP; eauto).
      discriminate. }
    assert (exists e, In e opening_execs /\ right (contract e) = Some "C")
      as HexC by (apply HC; reflexivity).
    split; [|split].
    + split; [discriminate|]. intros (e & He & Hr). destruct (HnoP e He Hr).
    + tauto.
    + split; [discriminate|]. intros Hno. destruct HexC as (e & He & Hr).
      destruct (Hno e He) as [_ H]. destruct (H Hr).
  - assert (forall e, In e opening_execs ->
              right (contract e) <> Some "P" /\ right (contract e) <> Some "C")
      as Hno.
    { intros e He. split; intros Hr.
      - assert (false = true) by (apply HP; eauto). discriminate.
      - assert (false = true) by (apply HC; eauto). discriminate. }
    split; [|split].
    + split; [discriminate|]. intros (e & He & Hr).
      destruct (proj1 (Hno e He) Hr).
    + split; [discriminate|]. intros [_ (e & He & Hr)].
      destruct (proj2 (Hno e He) Hr).
    + tauto.
Qed.

(** ** Signs of the entry and exit prices *)

Lemma float_abs_not_negative (x : float) :
  PrimFloat.ltb (PrimFloat.abs x) 0%float = false.
Proof.
  rewrite ltb_spec, abs_spec. change (Prim2SF 0%float) with (S754_zero false).
  destruct (Prim2SF x) as [s|s| |s m e]; reflexivity.
Qed.

Lemma hundredths_digits (m : positive) (e : Z) :
  0 <= Py.hundredths m e / 100
  /\ 0 <= Py.hundredths m e mod 100 / 10 <= 9
  /\ 0 <= Py.hundredths m e mod 10 <= 9.
Proof.
  pose proof (hundredths_nonneg m e) as Hn.
  set (n := Py.hundredths m e) in *.
  pose proof (Z.mod_pos_bound n 100 ltac:(lia)) as H100.
  pose proof (Z.mod_pos_bound n 10 ltac:(lia)) as H10.
  split; [apply Z.div_pos; lia|]. split; [|lia].
  split; [apply Z.div_pos; lia|].
  apply Z.lt_succ_r. apply Z.div_lt_upper_bound; lia.
Qed.

(** The digits of an absolute value: no sign. *)
Lemma format_2f_abs (x : float) :
  Py.format_2f (PrimFloat.abs x) = "nan"
  \/ Py.format_2f (PrimFloat.abs x) = "inf"
  \/ exists k a b,
       0 <= k /\ 0 <= a <= 9 /\ 0 <= b <= 9
       /\ Py.format_2f (PrimFloat.abs x)
          = (Py.str k ++ "." ++ Py.digit a ++ Py.digit b)%string.
Proof.
  unfold Py.format_2f. rewrite abs_spec.
  destruct (Prim2SF x) as [s|s| |s m e]; simpl SFabs; cbv iota.
  - right. right. exists 0, 0, 0. repeat split; try lia.
  - right. left. reflexivity.
  - left. reflexivity.
  - right. right. destruct (hundredths_digits m e) as (Hk & Ha & Hb).
    exists (Py.hundredths m e / 100), (Py.hundredths m e mod 100 / 10),
      (Py.hundredths m e mod 10).
    repeat split; try assumption; lia.
Qed.

Lemma entry_of_abs (opening_execs : list Fill) (en : Entry) :
  entry_of opening_execs = Some en ->
  exists x, entry_price en = PrimFloat.abs x.
Proof.
  unfold entry_of. destruct (combo_exec opening_execs) as [c|].
  - intros H. injection H as <-. eexists. reflexivity.
  - destruct opening_execs as [|first_exec rest]; [discriminate|].
    intros H. injection H as <-. eexists. reflexivity.
Qed.

(** X6. The entry price of a trade is an absolute value on both paths: it
    is never below zero, and its cell carries no minus sign: it is "nan",
    "inf", or an integer part, a point and two decimals. *)
Theorem entry_price_unsigned (opening_execs : list Fill) (en : Entry) :
  entry_of opening_execs = Some en ->
  PrimFloat.ltb (entry_price en) 0%float = false
  /\ (Py.format_2f (entry_price en) = "nan"
      \/ Py.format_2f (entry_price en) = "inf"
      \/ exists k a b,
           0 <= k /\ 0 <= a <= 9 /\ 0 <= b <= 9
           /\ Py.format_2f (entry_price en)
              = (Py.str k ++ "." ++ Py.digit a ++ Py.digit b)%string).
Proof.
  intros H. destruct (entry_of_abs _ _ H) as [x ->].
  split; [apply float_abs_not_negative|apply format_2f_abs].
Qed.

Lemma entry_price_unsigned_witness :
  Py.format_2f 3.5 = "nan" \/ Py.format_2f 3.5 = "inf"
  \/ exists k a b,
       0 <= k /\ 0 <= a <= 9 /\ 0 <= b <= 9
       /\ Py.format_2f 3.5
          = (Py.str k ++ "." ++ Py.digit a ++ Py.digit b)%string.
Proof.
  exact (proj2 (entry_price_unsigned
                  [ fill_at (spx_put 95) 7 100 "SLD" 5;
                    fill_at (spx_put 90) 7 100 "BOT" 1.5 ]
                  {| entry_contract := spx_put 95;
                     entry_execution := mkExecution 7 100 "SLD" 5;
                     entry_price := 3.5; entry_action := "BOT" |} eq_refl)).
Defined.

(** ** The closing combo, and the fills the closing bucket ignores *)

(** X7. When the closing bucket has a fill that is SLD with a strictly
    negative price, the first such fill decides the exit: the exit price is
    the absolute value of its price, so it is not below zero, the exit
    action is SLD, and no other fill of the bucket counts. *)
Theorem closing_combo_first (before after : list Fill) (c : Fill) :
  (forall e, In e before ->
     fill_side e = "SLD" -> negative_price e = false) ->
  fill_side c = "SLD" -> negative_price c = true ->
  closing_combo (before ++ c :: after) = Some c
  /\ exit_of (before ++ c :: after) = (PrimFloat.abs (fill_price c), "SLD")
  /\ PrimFloat.ltb (fst (exit_of (before ++ c :: after))) 0%float = false
  /\ forall (entry_price : float) (opening_execs : list Fill)
       (later : list (list Fill)),
       outcome_of entry_price
         (opening_execs :: (before ++ c :: after) :: later)
       = {| exit_price := Some (PrimFloat.abs (fill_price c));
            exit_action := "SLD";
            profit :=
              ((entry_price - PrimFloat.abs (fill_price c)) * 100)%float;
            status := "closed" |}.
Proof.
  intros Hbefore Hside Hneg.
  assert (closing_combo (before ++ c :: after) = Some c) as Hc.
  { unfold closing_combo. rewrite find_app.
    assert (find is_closing_combo before = None) as ->.
    { apply find_none_iff. intros e He. unfold is_closing_combo, has_side.
      destruct (String.eqb_spec (fill_side e) "SLD") as [Hs|Hs];
        [apply (Hbefore e He Hs)|reflexivity]. }
    simpl. unfold is_closing_combo, has_side. rewrite Hside, Hneg.
    reflexivity. }
  assert (exit_of (before ++ c :: after)
          = (PrimFloat.abs (fill_price c), "SLD")) as Hx
    by (unfold exit_of; rewrite Hc; reflexivity).
  split; [exact Hc|]. split; [exact Hx|]. split.
  - rewrite Hx. apply float_abs_not_negative.
  - intros entry_price opening_execs later. unfold outcome_of. rewrite Hx.
    reflexivity.
Qed.

Lemma closing_combo_first_witness :
  exit_of [ fill_at (spx_put 95) 7 200 "BOT" 1;
            fill_at spx_bag 7 200 "SLD" (-0.75);
            fill_at spx_bag 7 200 "SLD" (-9) ]
  = (0.75%float, "SLD").
Proof.
  refine (proj1 (proj2 (closing_combo_first
            [fill_at (spx_put 95) 7 200 "BOT" 1]
            [fill_at spx_bag 7 200 "SLD" (-9)]
            (fill_at spx_bag 7 200 "SLD" (-0.75)) _ eq_refl eq_refl))).
  intros e He. in_cases He.
Defined.

(** X8. In the fallback of the closing bucket a fill counts only when its
    price is strictly positive and its side is SLD or BOT: a fill that is
    no closing combo and has a price that is not strictly positive (zero,
    negative on a BOT fill, NaN), or a side that is neither SLD nor BOT,
    can be left out of the bucket without changing the exit. *)
Theorem closing_ignores_fill (before after : list Fill) (e : Fill) :
  is_closing_combo e = false ->
  positive_price e = false
  \/ (fill_side e <> "SLD" /\ fill_side e <> "BOT") ->
  exit_of (before ++ e :: after) = exit_of (before ++ after).
Proof.
  intros Hcombo Hout.
  assert (forall s, s = "SLD" \/ s = "BOT" ->
                    has_side s e && positive_price e = false) as Hno.
  { intros s Hs. destruct Hout as [Hp|[H1 H2]].
    - rewrite Hp. apply andb_false_r.
    - unfold has_side. destruct (String.eqb_spec (fill_side e) s) as [Heq|];
        [|reflexivity].
      destruct Hs; subst s; contradiction. }
  unfold exit_of, closing_combo, closing_credit, closing_debit.
  rewrite !find_app, !filter_app. simpl.
  rewrite Hcombo, (Hno "SLD" (or_introl eq_refl)),
    (Hno "BOT" (or_intror eq_refl)).
  reflexivity.
Qed.

Lemma closing_ignores_fill_witness :
  exit_of [ fill_at (spx_put 95) 7 200 "BOT" 1;
            fill_at spx_bag 7 200 "BOT" (-0.75);
            fill_at (spx_put 90) 7 200 "SLD" 0.25 ]
  = exit_of [ fill_at (spx_put 95) 7 200 "BOT" 1;
              fill_at (spx_put 90) 7 200 "SLD" 0.25 ].
Proof.
  refine (closing_ignores_fill [fill_at (spx_put 95) 7 200 "BOT" 1]
            [fill_at (spx_put 90) 7 200 "SLD" 0.25]
            (fill_at spx_bag 7 200 "BOT" (-0.75)) eq_refl _).
  left. reflexivity.
Defined.

(** ** Runs that end, and runs that raise *)

Lemma strike_attrs_In (x : float) (l : list Fill) :
  In x (strike_attrs l)
  <-> exists e, In e l /\ strike (contract e) = Some x.
Proof.
  unfold strike_attrs. rewrite in_flat_map. split.
  - intros (e & He & Hx). exists e. split; [exact He|].
    destruct (strike (contract e)) as [k|]; [|destruct Hx].
    destruct Hx as [->|[]]. reflexivity.
  - intros (e & He & Hx). exists e. split; [exact He|].
    rewrite Hx. left. reflexivity.
Qed.

Lemma int_not_finite (x : float) :
  Py.int x = None -> Py.is_finite x = false.
Proof.
  unfold Py.int, Py.is_finite.
  destruct (Prim2SF x); (discriminate || reflexivity).
Qed.

Lemma collect_strikes_none (l : list Fill) :
  collect_strikes l = None ->
  exists x, In x (strike_attrs l) /\ Py.is_finite x = false.
Proof.
  induction l as [|e l IH]; simpl; [discriminate|].
  unfold strike_attrs. simpl. fold (strike_attrs l).
  destruct (strike (contract e)) as [k|]; simpl; [|exact IH].
  destruct (Py.int k) as [n|] eqn:En.
  - destruct (collect_strikes l) as [ns|]; [discriminate|].
    intros _. destruct (IH eq_refl) as (x & Hx & Hf). exists x. auto.
  - intros _. exists k. split; [left; reflexivity|].
    apply int_not_finite, En.
Qed.

(** The opening bucket of an order that has fills: it exists, it is not
    empty, and its fills are fills of the order. *)
Lemma opening_bucket (execs : list Fill) :
  execs <> [] ->
  exists opening_execs later,
    time_groups execs = opening_execs :: later
    /\ opening_execs <> []
    /\ forall e, In e opening_execs -> In e execs.
Proof.
  intros Hne. unfold time_groups.
  destruct (times execs) as [|[t0 b0] rest] eqn:E.
  - destruct execs as [|e execs']; [contradiction|].
    pose proof (times_keys (e :: execs') e (or_introl eq_refl)) as Hk.
    rewrite E in Hk. destruct Hk.
  - exists b0, (map snd rest). split; [reflexivity|].
    destruct (times_files execs t0 b0) as [Hf Hb];
      [rewrite E; left; reflexivity|].
    split; [exact Hb|]. intros e He. rewrite Hf in He.
    apply filter_In in He. tauto.
Qed.

Lemma entry_of_some (opening_execs : list Fill) :
  opening_execs <> [] -> exists en, entry_of opening_execs = Some en.
Proof.
  intros Hne. unfold entry_of.
  destruct (combo_exec opening_execs); [eexists; reflexivity|].
  destruct opening_execs; [contradiction|eexists; reflexivity].
Qed.

Section RunFacts.

Variable strftime_datetime : Z -> string.
Variable strftime_date : Z -> string.
Variable strategy : string.

(** An order is never skipped; it raises only on a strike of its opening
    bucket that is infinite or NaN. *)
Lemma process_group_cases (execs : list Fill) :
  execs <> [] ->
  (exists r,
     process_group strftime_datetime strftime_date strategy execs = Wrote r)
  \/ (process_group strftime_datetime strftime_date strategy execs = Raised
      /\ exists opening_execs later x,
           time_groups execs = opening_execs :: later
           /\ In x (strike_attrs opening_execs)
           /\ Py.is_finite x = false).
Proof.
  intros Hne.
  destruct (opening_bucket execs Hne) as (o & later & Htg & Ho & _).
  destruct (entry_of_some o Ho) as [en Hen].
  unfold process_group. rewrite Htg, Hen.
  destruct (strikes_str o) as [s|] eqn:Es; [left; eexists; reflexivity|].
  right. split; [reflexivity|]. exists o, later.
  unfold strikes_str in Es.
  destruct (collect_strikes o) eqn:Ec; [discriminate|].
  destruct (collect_strikes_none o Ec) as (x & Hx & Hf). exists x. auto.
Qed.

Lemma orders_not_empty (executions : list Fill) (perm_id : Z)
  (execs : list Fill) :
  In (perm_id, execs) (trades_by_perm_id executions) ->
  execs <> [] /\ forall e, In e execs -> In e executions.
Proof.
  intros Hin.
  destruct (group_by_files Z.eqb Z.eqb_eq fill_permId executions)
    as (_ & Hd & _).
  destruct (Hd _ _ Hin) as [Hf Hne]. split; [exact Hne|].
  intros e He. rewrite Hf in He. apply filter_In in He. tauto.
Qed.

Lemma all_written (orders : list (Z * list Fill)) :
  (forall o, In o orders ->
     exists r,
       process_group strftime_datetime strftime_date strategy (snd o)
       = Wrote r) ->
  raises strftime_datetime strftime_date strategy orders = false
  /\ Forall2
       (fun o r =>
          process_group strftime_datetime strftime_date strategy (snd o)
          = Wrote r)
       orders (trades_of strftime_datetime strftime_date strategy orders).
Proof.
  induction orders as [|[k execs] orders IH]; intros H; simpl.
  - split; [reflexivity|constructor].
  - destruct (H (k, execs) (or_introl eq_refl)) as [r Hr]. simpl in Hr.
    rewrite Hr. destruct IH as [Hraise Hall].
    { intros o Ho. apply H. right. exact Ho. }
    split; [exact Hraise|]. constructor; [exact Hr|exact Hall].
Qed.

(** X9. When every strike among the executions is a finite number, the run
    does not raise and skips no order: it writes one row per permanent id,
    in the order of the groups, appends these rows to the ledger, and
    returns their number, which is the number of distinct permanent ids and
    at most the number of executions. *)
Theorem run_writes_one_row_per_order (ledger : option (list Line))
  (executions : list Fill) :
  (forall e x, In e executions -> strike (contract e) = Some x ->
     Py.is_finite x = true) ->
  let orders := trades_by_perm_id executions in
  let trades := trades_of strftime_datetime strftime_date strategy orders in
  raises strftime_datetime strftime_date strategy orders = false
  /\ Forall2
       (fun o r =>
          process_group strftime_datetime strftime_date strategy (snd o)
          = Wrote r)
       orders trades
  /\ NoDup (map fst orders)
  /\ (List.length trades = List.length orders
      /\ List.length orders <= List.length executions)%nat
  /\ snd (collect_daily_results strftime_datetime strftime_date strategy
            ledger executions)
     = Some (Z.of_nat (List.length orders))
  /\ (forall lines,
        fst (collect_daily_results strftime_datetime strftime_date strategy
               (Some lines) executions)
        = Some (lines ++ map row_cells trades)).
Proof.
  intros Hfin orders trades.
  destruct (all_written orders) as [Hraise Hall].
  { intros [k execs] Ho. simpl.
    destruct (orders_not_empty executions k execs Ho) as [Hne Hsub].
    destruct (process_group_cases execs Hne)
      as [Hr|(_ & o & later & x & Htg & Hx & Hf)]; [exact Hr|exfalso].
    destruct (opening_bucket execs Hne) as (o' & later' & Htg' & _ & Hin).
    rewrite Htg in Htg'. injection Htg' as <- _.
    apply strike_attrs_In in Hx. destruct Hx as (e & He & Hs).
    rewrite (Hfin e x (Hsub e (Hin e He)) Hs) in Hf. discriminate. }
  assert (List.length trades = List.length orders) as Hlen
    by (symmetry; apply (Forall2_length Hall)).
  split; [exact Hraise|]. split; [exact Hall|].
  split; [apply (group_by_NoDup Z.eqb Z.eqb_eq)|].
  split; [split; [exact Hlen|apply (group_by_length Z.eqb Z.eqb_eq)]|].
  split.
  - unfold collect_daily_results. destruct executions as [|e executions'];
      [reflexivity|].
    rewrite write_trades_spec. fold orders. rewrite Hraise. simpl.
    fold trades. rewrite Hlen. reflexivity.
  - intros lines. rewrite collect_daily_results_lines.
    destruct executions; [|reflexivity].
    simpl. rewrite app_nil_r. reflexivity.
Qed.

(** X10. A run that raises returns nothing; it raises only because a fill
    in the opening bucket of some order has a strike that is infinite or
    NaN, on which [int] fails; the ledger keeps the rows written before. *)
Theorem run_raises_on_bad_strike (ledger : option (list Line))
  (executions : list Fill) :
  let orders := trades_by_perm_id executions in
  raises strftime_datetime strftime_date strategy orders = true ->
  snd (collect_daily_results strftime_datetime strftime_date strategy ledger
         executions) = None
  /\ (exists perm_id execs opening_execs later e x,
        In (perm_id, execs) orders
        /\ time_groups execs = opening_execs :: later
        /\ In e opening_execs /\ In e executions
        /\ strike (contract e) = Some x /\ Py.is_finite x = false)
  /\ (forall lines,
        fst (collect_daily_results strftime_datetime strftime_date strategy
               (Some lines) executions)
        = Some (lines
                ++ map row_cells
                     (trades_of strftime_datetime strftime_date strategy
                        orders))).
Proof.
  intros orders Hraise. split; [|split].
  - unfold collect_daily_results. destruct executions as [|e executions'];
      [discriminate Hraise|].
    rewrite write_trades_spec. fold orders. rewrite Hraise. reflexivity.
  - assert (forall l,
              (forall o, In o l -> In o orders) ->
              raises strftime_datetime strftime_date strategy l = true ->
              exists perm_id execs,
                In (perm_id, execs) orders
                /\ process_group strftime_datetime strftime_date strategy
                     execs = Raised) as Hfind.
    { induction l as [|[k execs] l IH]; intros Hsub Hr; [discriminate|].
      simpl in Hr.
      destruct (process_group strftime_datetime strftime_date strategy execs)
        eqn:E;
        try (apply IH; [intros o Ho; apply Hsub; right; exact Ho|exact Hr]).
      exists k, execs. split; [apply Hsub; left; reflexivity|exact E]. }
    destruct (Hfind orders (fun o H => H) Hraise) as (k & execs & Hin & Hp).
    destruct (orders_not_empty executions k execs Hin) as [Hne Hsub].
    destruct (process_group_cases execs Hne)
      as [[r Hr]|(_ & o & later & x & Htg & Hx & Hf)]; [congruence|].
    destruct (opening_bucket execs Hne) as (o' & later' & Htg' & _ & Ho).
    rewrite Htg in Htg'. injection Htg' as <- _.
    apply strike_attrs_In in Hx. destruct Hx as (e & He & Hs).
    exists k, execs, o, later, e, x. repeat split; auto.
  - intros lines. rewrite collect_daily_results_lines.
    destruct executions; [discriminate Hraise|reflexivity].
Qed.

End RunFacts.

Ltac finite_strikes e x He Hs :=
  repeat (destruct He as [<-|He];
          [simpl in Hs; first [discriminate Hs|injection Hs as <-; reflexivity]
          |]);
  destruct He.

Lemma run_writes_one_row_per_order_witness :
  snd (collect_daily_results Py.str Py.str "ZeroTheta" None open_session)
  = Some 2.
Proof.
  refine (proj1 (proj2 (proj2 (proj2 (proj2
            (run_writes_one_row_per_order Py.str Py.str "ZeroTheta" None
               open_session _)))))).
  intros e x He Hs. unfold open_session in He. finite_strikes e x He Hs.
Defined.

Lemma run_raises_on_bad_strike_witness :
  snd (collect_daily_results Py.str Py.str "ZeroTheta" None
         bad_strike_session) = None
  /\ fst (collect_daily_results Py.str Py.str "ZeroTheta" (Some [])
            bad_strike_session)
     = Some [ ["100"; "Bull Put"; "SPX"; "95"; "BOT"; "100"; "5.00"; "";
               ""; "0.00"; "open"; "ZeroTheta"] ].
Proof.
  split.
  - exact (proj1 (run_raises_on_bad_strike Py.str Py.str "ZeroTheta" None
                    bad_strike_session eq_refl)).
  - exact (proj2 (proj2 (run_raises_on_bad_strike Py.str Py.str "ZeroTheta"
                           None bad_strike_session eq_refl)) []).
Defined.

(** ** The per-execution collector *)

Lemma append_nonempty (a b : string) : b <> "" -> (a ++ b)%string <> "".
Proof. destruct a; [intros H; exact H|discriminate]. Qed.

Lemma format_2f_nonempty (x : float) : Py.format_2f x <> "".
Proof.
  unfold Py.format_2f.
  destruct (Prim2SF x) as [s|s| |s m e]; try (destruct s; discriminate).
  - discriminate.
  - apply append_nonempty, append_nonempty. discriminate.
Qed.

Section SimpleFacts.

Variable strftime_datetime : Z -> string.
Variable strftime_date : Z -> string.
Variable strategy : string.

Lemma simple_row_some (e : Fill) :
  (forall x, strike (contract e) = Some x -> Py.is_finite x = true) ->
  exists r, simple_row strftime_datetime strftime_date strategy e = Some r.
Proof.
  intros Hfin. unfold simple_row, simple_strike.
  destruct (strike (contract e)) as [k|]; [|eexists; reflexivity].
  destruct (int_finite k (Hfin k eq_refl)) as [n ->]. eexists. reflexivity.
Qed.

Lemma write_executions_lines (executions : list Fill) (csvfile : list Line) :
  fst (write_executions strftime_datetime strftime_date strategy executions
         csvfile)
  = csvfile
    ++ map row_cells
         (simple_rows strftime_datetime strftime_date strategy executions).
Proof.
  revert csvfile. induction executions as [|e executions IH];
    intros csvfile; simpl.
  - rewrite app_nil_r. reflexivity.
  - destruct (simple_row _ _ _ e) as [r|]; simpl.
    + rewrite IH, <- app_assoc. reflexivity.
    + rewrite app_nil_r. reflexivity.
Qed.

Lemma write_executions_completed (executions : list Fill)
  (csvfile : list Line) :
  (forall e, In e executions ->
     exists r, simple_row strftime_datetime strftime_date strategy e = Some r)
  ->
  snd (write_executions strftime_datetime strftime_date strategy executions
         csvfile) = true
  /\ Forall2
       (fun e r =>
          simple_row strftime_datetime strftime_date strategy e = Some r)
       executions
       (simple_rows strftime_datetime strftime_date strategy executions).
Proof.
  revert csvfile. induction executions as [|e executions IH];
    intros csvfile H; simpl.
  - split; [reflexivity|constructor].
  - destruct (H e (or_introl eq_refl)) as [r Hr]. rewrite Hr.
    destruct (IH (csvfile ++ [row_cells r])) as [Hs Hall].
    { intros e' He'. apply H. right. exact He'. }
    split; [exact Hs|]. constructor; [exact Hr|exact Hall].
Qed.

Lemma collect_simple_lines (ledger : option (list Line))
  (executions : list Fill) :
  fst (collect_daily_results_simple strftime_datetime strftime_date strategy
         ledger executions)
  = match executions, ledger with
    | [], _ => ledger
    | _ :: _, Some lines =>
        Some (lines
              ++ map row_cells
                   (simple_rows strftime_datetime strftime_date strategy
                      executions))
    | _ :: _, None =>
        Some (fieldnames
              :: map row_cells
                   (simple_rows strftime_datetime strftime_date strategy
                      executions))
    end.
Proof.
  unfold collect_daily_results_simple.
  destruct executions as [|e executions]; [reflexivity|].
  pose proof (write_executions_lines (e :: executions)) as Hw.
  destruct ledger as [lines|].
  - specialize (Hw lines). destruct (write_executions _ _ _ _ lines).
    simpl in *. rewrite Hw. reflexivity.
  - specialize (Hw [fieldnames]).
    destruct (write_executions _ _ _ _ [fieldnames]). simpl in *.
    rewrite Hw. reflexivity.
Qed.

(** X11. When every strike among the executions is a finite number, the
    per-execution collector writes one row per execution, in the order of
    the feed, after the lines the ledger has, with the header first when
    the ledger is new, and returns the number of executions; on no
    execution it returns 0 and leaves the ledger as it is. *)
Theorem simple_one_row_per_execution (ledger : option (list Line))
  (executions : list Fill) :
  (forall e x, In e executions -> strike (contract e) = Some x ->
     Py.is_finite x = true) ->
  let rows := simple_rows strftime_datetime strftime_date strategy executions
  in
  Forall2
    (fun e r => simple_row strftime_datetime strftime_date strategy e = Some r)
    executions rows
  /\ snd (collect_daily_results_simple strftime_datetime strftime_date
            strategy ledger executions)
     = Some (Z.of_nat (List.length executions))
  /\ (forall lines,
        fst (collect_daily_results_simple strftime_datetime strftime_date
               strategy (Some lines) executions)
        = Some (lines ++ map row_cells rows))
  /\ fst (collect_daily_results_simple strftime_datetime strftime_date
            strategy None executions)
     = match executions with
       | [] => None
       | _ :: _ => Some (fieldnames :: map row_cells rows)
       end.
Proof.
  intros Hfin rows.
  assert (forall e, In e executions ->
            exists r,
              simple_row strftime_datetime strftime_date strategy e = Some r)
    as Hsome.
  { intros e He. apply simple_row_some. intros x. apply Hfin, He. }
  split; [|split; [|split]].
  - apply (write_executions_completed executions []), Hsome.
  - unfold collect_daily_results_simple.
    destruct executions as [|e executions']; [reflexivity|].
    set (csvfile := match ledger with Some lines => lines | None => _ end).
    destruct (write_executions_completed (e :: executions') csvfile Hsome)
      as [Hs _].
    destruct (write_executions _ _ _ _ csvfile). simpl in Hs. subst b.
    reflexivity.
  - intros lines. rewrite collect_simple_lines.
    destruct executions; [|reflexivity].
    simpl. rewrite app_nil_r. reflexivity.
  - rewrite collect_simple_lines. destruct executions; reflexivity.
Qed.

(** X12. The row of one execution has trade type "spread_leg", status
    "executed" and an empty profit.  A SLD execution fills the three entry
    cells and leaves the exit cells empty; every other execution fills the
    exit cells and leaves the entry cells empty: exactly one of the two
    price cells is filled. *)
Theorem simple_row_entry_or_exit (e : Fill) (r : Row) :
  simple_row strftime_datetime strftime_date strategy e = Some r ->
  col_trade_type r = "spread_leg" /\ col_status r = "executed"
  /\ col_profit r = "" /\ col_symbol r = symbol (contract e)
  /\ col_date r = strftime_date (fill_time e)
  /\ (fill_side e = "SLD" ->
      col_entry_action r = "SLD"
      /\ col_entry_time r = strftime_datetime (fill_time e)
      /\ col_entry_price r = Py.format_2f (fill_price e)
      /\ col_exit_action r = "" /\ col_exit_price r = "")
  /\ (fill_side e <> "SLD" ->
      col_entry_action r = "" /\ col_entry_time r = ""
      /\ col_entry_price r = ""
      /\ col_exit_action r = fill_side e
      /\ col_exit_price r = Py.format_2f (fill_price e))
  /\ (col_entry_price r = "" <-> col_exit_price r <> "").
Proof.
  unfold simple_row.
  destruct (simple_strike (contract e)) as [s|]; [|discriminate].
  intros H. injection H as <-. simpl. unfold has_side.
  pose proof (format_2f_nonempty (fill_price e)) as Hne.
  destruct (String.eqb_spec (fill_side e) "SLD") as [Hs|Hs]; simpl;
    do 5 (split; [reflexivity|]).
  - split; [intros _; repeat split; try reflexivity; exact Hs|].
    split; [intros Hn; contradiction|].
    split; [intros H; destruct (Hne H)|intros H; destruct H; reflexivity].
  - split; [intros H; contradiction|].
    split; [intros _; repeat split; reflexivity|].
    split; [intros _; exact Hne|reflexivity].
Qed.

Lemma simple_rows_In (executions : list Fill) (r : Row) :
  In r (simple_rows strftime_datetime strftime_date strategy executions) ->
  exists e, simple_row strftime_datetime strftime_date strategy e = Some r.
Proof.
  induction executions as [|e executions IH]; simpl; [intros []|].
  destruct (simple_row _ _ _ e) as [r'|] eqn:E; [|intros []].
  intros [<-|H]; [exists e; exact E|apply IH, H].
Qed.

Lemma header_not_in_simple_rows (executions : list Fill) :
  ~ In fieldnames
      (map row_cells
         (simple_rows strftime_datetime strftime_date strategy executions)).
Proof.
  intros H. apply in_map_iff in H. destruct H as (r & Hr & Hin).
  apply simple_rows_In in Hin. destruct Hin as [e He].
  unfold simple_row in He.
  destruct (simple_strike (contract e)); [|discriminate].
  injection He as <-. unfold row_cells, fieldnames in Hr.
  injection Hr as _ _ _ _ _ _ _ _ _ _ Hs _. discriminate Hs.
Qed.

(** One run of either collector: it appends lines, none a header, to a
    ledger that exists, and starts a new ledger with the header. *)
Lemma run_collector_lines (ledger : option (list Line))
  (session : Collector * list Fill) :
  exists rows,
    ~ In fieldnames rows
    /\ run_collector strftime_datetime strftime_date strategy ledger session
       = match snd session, ledger with
         | [], _ => ledger
         | _ :: _, Some lines => Some (lines ++ rows)
         | _ :: _, None => Some (fieldnames :: rows)
         end.
Proof.
  destruct session as [[|] executions]; unfold run_collector; simpl.
  - eexists. split; [apply (header_not_in_rows strftime_datetime
                              strftime_date strategy
                              (trades_by_perm_id executions))|].
    rewrite collect_daily_results_lines.
    destruct executions; [reflexivity|]. destruct ledger; reflexivity.
  - eexists. split; [apply (header_not_in_simple_rows executions)|].
    rewrite collect_simple_lines.
    destruct executions; [reflexivity|]. destruct ledger; reflexivity.
Qed.

Lemma mixed_runs_existing (sessions : list (Collector * list Fill))
  (lines : list Line) :
  exists data,
    mixed_runs strftime_datetime strftime_date strategy (Some lines) sessions
    = Some (lines ++ data)
    /\ ~ In fieldnames data.
Proof.
  revert lines. induction sessions as [|session sessions IH]; intros lines;
    unfold mixed_runs; simpl.
  - exists []. rewrite app_nil_r. split; [reflexivity|intros []].
  - destruct (run_collector_lines (Some lines) session) as (rows & Hn & ->).
    destruct (snd session).
    + apply IH.
    + destruct (IH (lines ++ rows)) as (data & Hd & Hnd).
      exists (rows ++ data). unfold mixed_runs in Hd. rewrite Hd, app_assoc.
      split; [reflexivity|].
      intros Hin. apply in_app_or in Hin. tauto.
Qed.

(** X13. Both collectors keep to one header: whatever runs of the two
    follow each other, a ledger that exists is only appended to, with no
    header among the new lines, and a new ledger gets the header once, as
    its first line, at the first run that has executions. *)
Theorem mixed_runs_one_header (sessions : list (Collector * list Fill)) :
  (forall lines, exists data,
     mixed_runs strftime_datetime strftime_date strategy (Some lines)
       sessions = Some (lines ++ data)
     /\ ~ In fieldnames data)
  /\ ((mixed_runs strftime_datetime strftime_date strategy None sessions
       = None
       /\ forall session, In session sessions -> snd session = [])
      \/ exists data,
           mixed_runs strftime_datetime strftime_date strategy None sessions
           = Some (fieldnames :: data)
           /\ ~ In fieldnames data).
Proof.
  split; [apply mixed_runs_existing|].
  induction sessions as [|session sessions IH]; unfold mixed_runs; simpl.
  - left. split; [reflexivity|intros session []].
  - destruct (run_collector_lines None session) as (rows & Hn & ->).
    destruct (snd session) eqn:E.
    + destruct IH as [[Hnone Hall]|Hsome].
      * left. split; [exact Hnone|].
        intros s [<-|Hs]; [exact E|apply Hall, Hs].
      * right. exact Hsome.
    + right.
      destruct (mixed_runs_existing sessions (fieldnames :: rows))
        as (data & Hd & Hnd).
      exists (rows ++ data). unfold mixed_runs in Hd. rewrite Hd.
      split; [reflexivity|].
      intros Hin. apply in_app_or in Hin. tauto.
Qed.

End SimpleFacts.

Lemma simple_one_row_per_execution_witness :
  snd (collect_daily_results_simple Py.str Py.str "ZeroTheta" None
         open_session) = Some 4.
Proof.
  refine (proj1 (proj2
            (simple_one_row_per_execution Py.str Py.str "ZeroTheta" None
               open_session _))).
  intros e x He Hs. unfold open_session in He. finite_strikes e x He Hs.
Defined.

Lemma simple_row_entry_or_exit_witness :
  exists r,
    simple_row Py.str Py.str "ZeroTheta" (fill_at (spx_put 90) 7 100 "BOT" 1.5)
    = Some r
    /\ col_entry_price r = "" /\ col_exit_action r = "BOT"
    /\ col_exit_price r = "1.50".
Proof.
  eexists. split; [reflexivity|].
  destruct (simple_row_entry_or_exit Py.str Py.str "ZeroTheta"
              (fill_at (spx_put 90) 7 100 "BOT" 1.5) _ eq_refl)
    as (_ & _ & _ & _ & _ & _ & Hexit & _).
  destruct Hexit as (_ & _ & H1 & H2 & H3); [discriminate|].
  split; [exact H1|]. split; [exact H2|exact H3].
Defined.

(** ** The frame of the presentation layer *)

Lemma In_combine_seq {X : Type} (l : list X) (s i : nat) (x : X) :
  In (i, x) (combine (seq s (List.length l)) l)
  <-> (s <= i)%nat /\ nth_error l (i - s) = Some x.
Proof.
  revert s. induction l as [|a l IH]; intros s; simpl.
  - split; [intros []|]. intros [_ H]. destruct (i - s)%nat; discriminate.
  - rewrite IH. split.
    + intros [H|[Hle Hn]].
      * injection H as <- <-. rewrite Nat.sub_diag. split; [lia|reflexivity].
      * split; [lia|]. replace (i - s)%nat with (S (i - S s)) by lia.
        exact Hn.
    + intros [Hle Hn]. destruct (Nat.eq_dec i s) as [->|Hne].
      * rewrite Nat.sub_diag in Hn. injection Hn as <-. left. reflexivity.
      * right. split; [lia|].
        replace (i - s)%nat with (S (i - S s)) in Hn by lia. exact Hn.
Qed.

Lemma NoDup_fst_unique {X Y : Type} (l : list (X * Y)) (i : X) (x y : Y) :
  NoDup (map fst l) -> In (i, x) l -> In (i, y) l -> x = y.
Proof.
  induction l as [|[j z] l IH]; simpl; intros Hn Hx Hy; [destruct Hx|].
  apply NoDup_cons_iff in Hn. destruct Hn as [Hj Hn].
  destruct Hx as [Hx|Hx], Hy as [Hy|Hy].
  - congruence.
  - injection Hx as -> _. destruct Hj. apply (in_map fst) in Hy. exact Hy.
  - injection Hy as -> _. destruct Hj. apply (in_map fst) in Hx. exact Hx.
  - apply IH; assumption.
Qed.

Section FrameFacts.

Import Dashboard.

Variable sort_values : DataFrame -> DataFrame.
Hypothesis sort_values_spec : sorts_by_entry_time sort_values.

Lemma In_read_csv (rows : list LedgerRow) (i : nat) (r : LedgerRow) :
  In (i, r) (read_csv rows) <-> nth_error rows i = Some r.
Proof.
  unfold read_csv. rewrite In_combine_seq, Nat.sub_0_r.
  split; [tauto|]. intros H. split; [lia|exact H].
Qed.

Lemma In_prepare (rows : list LedgerRow) (i : nat) (r : LedgerRow) :
  In (i, r) (prepare rows)
  <-> exists r0,
        nth_error rows i = Some r0 /\ present (date r0) = true
        /\ r = with_profit 0 r0.
Proof.
  unfold prepare, reset_profit, dropna_date. rewrite in_map_iff. split.
  - intros ([j r0] & Heq & Hin). simpl in Heq. injection Heq as -> <-.
    apply filter_In in Hin. destruct Hin as [Hin Hd].
    apply In_read_csv in Hin. exists r0. auto.
  - intros (r0 & Hn & Hd & ->). exists (i, r0). split; [reflexivity|].
    apply filter_In. split; [apply In_read_csv, Hn|exact Hd].
Qed.

Lemma load_data_assign (rows : list LedgerRow) :
  load_data sort_values rows
  = assign_all (assignments sort_values (groupby (prepare rows)))
      (prepare rows).
Proof. unfold load_data. apply pair_groups_assign. Qed.

Lemma load_data_reset (rows : list LedgerRow) :
  reset_profit (load_data sort_values rows) = prepare rows.
Proof. rewrite load_data_assign, assign_all_reset. apply prepare_reset. Qed.

Lemma load_data_NoDup (rows : list LedgerRow) :
  NoDup (map fst (load_data sort_values rows)).
Proof.
  rewrite <- reset_profit_labels, load_data_reset. apply prepare_NoDup.
Qed.

Lemma with_profit_own (r r0 : LedgerRow) :
  with_profit 0 r = with_profit 0 r0 -> r = with_profit (profit r) r0.
Proof.
  intros H. destruct r, r0. unfold with_profit in *. simpl in *.
  injection H as -> -> -> -> -> -> ->. reflexivity.
Qed.

Lemma In_load_data (rows : list LedgerRow) (i : nat) (r : LedgerRow) :
  In (i, r) (load_data sort_values rows) ->
  exists r0,
    nth_error rows i = Some r0 /\ present (date r0) = true
    /\ r = with_profit (profit r) r0.
Proof.
  intros Hin.
  assert (In (i, with_profit 0 r) (prepare rows)) as Hp.
  { rewrite <- load_data_reset. unfold reset_profit. apply in_map_iff.
    exists (i, r). split; [reflexivity|exact Hin]. }
  apply In_prepare in Hp. destruct Hp as (r0 & Hn & Hd & Heq).
  exists r0. split; [exact Hn|]. split; [exact Hd|].
  apply with_profit_own. rewrite Heq. reflexivity.
Qed.

(** X14. The frame [load_data] returns holds exactly the rows of the ledger
    whose date is valid, each under the label of its position in the
    ledger, no label twice, and each as it was read but for its profit;
    a row with an invalid date is in no way in the frame. *)
Theorem load_data_keeps_dated_rows (rows : list LedgerRow) :
  NoDup (map fst (load_data sort_values rows))
  /\ (forall i r, In (i, r) (load_data sort_values rows) ->
        exists r0,
          nth_error rows i = Some r0 /\ present (date r0) = true
          /\ r = with_profit (profit r) r0)
  /\ (forall i r0, nth_error rows i = Some r0 -> present (date r0) = true ->
        exists p, In (i, with_profit p r0) (load_data sort_values rows))
  /\ (forall i r0, nth_error rows i = Some r0 -> present (date r0) = false ->
        ~ In i (map fst (load_data sort_values rows)))
  /\ (List.length (load_data sort_values rows) <= List.length rows)%nat.
Proof.
  split; [apply load_data_NoDup|]. split; [apply In_load_data|]. split.
  { intros i r0 Hn Hd.
    assert (In (i, with_profit 0 r0)
              (reset_profit (load_data sort_values rows))) as Hin.
    { rewrite load_data_reset. apply In_prepare. exists r0. auto. }
    unfold reset_profit in Hin. apply in_map_iff in Hin.
    destruct Hin as ([j r] & Heq & Hin). simpl in Heq.
    apply pair_equal_spec in Heq. destruct Heq as [-> Heq].
    exists (profit r).
    rewrite <- (with_profit_own r r0 Heq). exact Hin. }
  split.
  { intros i r0 Hn Hd Hin. apply in_map_iff in Hin.
    destruct Hin as ([j r] & Heq & Hin). simpl in Heq. subst j.
    apply In_load_data in Hin. destruct Hin as (r1 & Hn1 & Hd1 & _).
    rewrite Hn in Hn1. injection Hn1 as <-. congruence. }
  rewrite <- (length_map fst (load_data sort_values rows)),
    <- reset_profit_labels, load_data_reset.
  unfold prepare. rewrite reset_profit_labels, length_map.
  unfold dropna_date. etransitivity; [apply filter_length_le|].
  unfold read_csv. rewrite length_combine, length_seq. lia.
Qed.

End FrameFacts.

(** ** Which rows get a profit *)

Section PartnerFacts.

Import Dashboard.

Variable sort_values : DataFrame -> DataFrame.
Hypothesis sort_values_spec : sorts_by_entry_time sort_values.

Lemma has_action_eq (a : string) (ir : nat * LedgerRow) :
  has_action a ir = true -> entry_action (snd ir) = Some a.
Proof.
  unfold has_action. destruct (entry_action (snd ir)) as [x|]; [|discriminate].
  intros H. apply String.eqb_eq in H. subst x. reflexivity.
Qed.

(** A pair of the pairing: a BOT row and a SLD row of one group of the
    frame, under different labels. *)
Lemma pair_rows_facts (df : DataFrame) (k : Key) (g : DataFrame)
  (b s : nat * LedgerRow) :
  NoDup (map fst df) ->
  In (k, g) (groupby df) ->
  In (b, s) (combine (bot_rows sort_values g) (sld_rows sort_values g)) ->
  In b df /\ In s df
  /\ key_complete b = true /\ key_of b = k /\ key_of s = k
  /\ entry_action (snd b) = Some "BOT" /\ entry_action (snd s) = Some "SLD"
  /\ fst b <> fst s.
Proof.
  intros Hn Hg Hbs.
  pose proof (in_combine_l _ _ _ _ Hbs) as Hb.
  pose proof (in_combine_r _ _ _ _ Hbs) as Hs.
  apply filter_In in Hb, Hs. destruct Hb as [Hb Hba], Hs as [Hs Hsa].
  apply (proj1 (sort_values_In sort_values sort_values_spec g b)) in Hb.
  apply (proj1 (sort_values_In sort_values sort_values_spec g s)) in Hs.
  destruct (In_group_frame df (groupby df) k g b (Permutation_refl _) Hg Hb)
    as (Hbdf & Hbc & Hbk).
  destruct (In_group_frame df (groupby df) k g s (Permutation_refl _) Hg Hs)
    as (Hsdf & _ & Hsk).
  repeat split; try assumption; try (apply has_action_eq; assumption).
  intros Heq. destruct b as [i rb], s as [j rs]. simpl in Heq. subst j.
  assert (rb = rs) by (apply (NoDup_fst_unique df i); assumption). subst rs.
  rewrite (has_action_exclusive _ Hba) in Hsa. discriminate.
Qed.

Lemma key_complete_key (x y : nat * LedgerRow) :
  key_of x = key_of y -> key_complete x = key_complete y.
Proof.
  unfold key_of, key_complete. intros H. injection H as -> -> -> ->.
  reflexivity.
Qed.

(** X15. A row of the frame has profit 0 unless it has a partner: another
    row of the frame, under another label, with the same key (date,
    trade_type, symbol, strikes), the opposite action and the same profit,
    which is (BOT.entry_price - SLD.entry_price) * 100.  So the pairing
    gives a profit to rows of action BOT or SLD only, and never to a row
    alone in its group. *)
Theorem profit_needs_partner (rows : list LedgerRow) (i : nat)
  (r : LedgerRow) :
  In (i, r) (load_data sort_values rows) ->
  profit r = 0%float
  \/ exists j r',
       In (j, r') (load_data sort_values rows) /\ j <> i
       /\ key_of (j, r') = key_of (i, r) /\ key_complete (i, r) = true
       /\ profit r' = profit r
       /\ ((entry_action r = Some "BOT" /\ entry_action r' = Some "SLD"
            /\ profit r = ((entry_price r - entry_price r') * 100)%float)
           \/ (entry_action r = Some "SLD" /\ entry_action r' = Some "BOT"
               /\ profit r = ((entry_price r' - entry_price r) * 100)%float)).
Proof.
  intros Hin. pose proof (load_data_NoDup sort_values rows) as Hout.
  rewrite load_data_assign in *.
  set (df := prepare rows) in *. set (groups := groupby df) in *.
  assert (NoDup (map fst df)) as Hdf by apply prepare_NoDup.
  assert (NoDup (map fst (assignments sort_values groups))) as Hassign
    by (apply (assignments_NoDup sort_values sort_values_spec df);
        [apply Permutation_refl|exact Hdf]).
  destruct (in_dec Nat.eq_dec i (map fst (assignments sort_values groups)))
    as [Hi|Hi].
  - right. apply in_map_iff in Hi. destruct Hi as ([i' p] & Heq & Hi).
    simpl in Heq. subst i'. apply In_assignments in Hi.
    destruct Hi as (k & g & b & s & Hg & Hbs & -> & Hidx).
    destruct (pair_rows_facts df k g b s Hdf Hg Hbs)
      as (Hb & Hs & Hbc & Hbk & Hsk & Hba & Hsa & Hne).
    assert (In (fst b, pair_profit b s) (assignments sort_values groups))
      as Hab
      by (apply In_assignments; exists k, g, b, s; auto).
    assert (In (fst s, pair_profit b s) (assignments sort_values groups))
      as Has
      by (apply In_assignments; exists k, g, b, s; auto).
    assert (key_of s = key_of b) as Hkey by congruence.
    assert (key_complete s = true) as Hsc
      by (rewrite (key_complete_key s b Hkey); exact Hbc).
    destruct b as [ib rb], s as [js rs].
    pose proof (assign_all_assigned _ df ib _ rb Hassign Hab Hb) as Hob.
    pose proof (assign_all_assigned _ df js _ rs Hassign Has Hs) as Hos.
    destruct Hidx as [Hidx | Hidx]; simpl in Hidx; subst i.
    + assert (r = with_profit (pair_profit (ib, rb) (js, rs)) rb) as ->
        by (apply (NoDup_fst_unique _ ib _ _ Hout Hin Hob)).
      exists js, (with_profit (pair_profit (ib, rb) (js, rs)) rs).
      split; [exact Hos|]. split; [auto|].
      split; [exact Hkey|]. split; [exact Hbc|]. split; [reflexivity|].
      left. split; [exact Hba|]. split; [exact Hsa|reflexivity].
    + assert (r = with_profit (pair_profit (ib, rb) (js, rs)) rs) as ->
        by (apply (NoDup_fst_unique _ js _ _ Hout Hin Hos)).
      exists ib, (with_profit (pair_profit (ib, rb) (js, rs)) rb).
      split; [exact Hob|]. split; [auto|].
      split; [symmetry; exact Hkey|]. split; [exact Hsc|].
      split; [reflexivity|].
      right. split; [exact Hsa|]. split; [exact Hba|reflexivity].
  - left. apply assign_all_other in Hin; [|exact Hi].
    apply In_prepare in Hin. destruct Hin as (r0 & _ & _ & ->). reflexivity.
Qed.

Lemma In_prepare_action (rows : list LedgerRow) (ir : nat * LedgerRow) :
  In ir (prepare rows) ->
  exists r0, In r0 rows /\ entry_action (snd ir) = entry_action r0.
Proof.
  destruct ir as [i r]. intros Hin. apply In_prepare in Hin.
  destruct Hin as (r0 & Hn & _ & ->). exists r0.
  split; [apply (nth_error_In _ _ Hn)|reflexivity].
Qed.

(** X16. A ledger without a SLD row, or without a BOT row, has no pair: all
    the profits of its frame are 0, whatever profits the ledger had.  Such
    is a ledger that holds one row. *)
Theorem one_sided_ledger_profit_zero (rows : list LedgerRow) (a : string) :
  a = "BOT" \/ a = "SLD" ->
  (forall r0, In r0 rows -> entry_action r0 <> Some a) ->
  load_data sort_values rows = prepare rows
  /\ forall i r, In (i, r) (load_data sort_values rows) -> profit r = 0%float.
Proof.
  intros Ha Hnone.
  assert (forall g, (forall ir, In ir g -> In ir (prepare rows)) ->
            filter (has_action a) (sort_values g) = []) as Hempty.
  { intros g Hg. destruct (filter _ _) as [|ir l] eqn:E; [reflexivity|].
    exfalso. assert (In ir (filter (has_action a) (sort_values g))) as Hin
      by (rewrite E; left; reflexivity).
    apply filter_In in Hin. destruct Hin as [Hin Hact].
    apply (proj1 (sort_values_In sort_values sort_values_spec g ir)) in Hin.
    apply Hg, In_prepare_action in Hin.
    destruct Hin as (r0 & Hr0 & Heq). apply has_action_eq in Hact.
    apply (Hnone r0 Hr0). congruence. }
  assert (assignments sort_values (groupby (prepare rows)) = []) as Hnil.
  { unfold assignments.
    assert (forall gs,
              (forall kg, In kg gs -> In kg (groupby (prepare rows))) ->
              flat_map
                (fun g => flat_map pair_assignments
                            (combine (bot_rows sort_values (snd g))
                               (sld_rows sort_values (snd g))))
                gs = []) as H.
    { induction gs as [|[k g] gs IH]; intros Hsub; [reflexivity|].
      simpl. rewrite IH by (intros kg Hkg; apply Hsub; right; exact Hkg).
      rewrite app_nil_r.
      assert (forall ir, In ir g -> In ir (prepare rows)) as Hg.
      { intros ir Hir.
        apply (In_group_frame (prepare rows) (groupby (prepare rows)) k g ir
                 (Permutation_refl _)); [|exact Hir].
        apply Hsub. left. reflexivity. }
      unfold bot_rows, sld_rows. destruct Ha as [-> | ->].
      - rewrite (Hempty g Hg). reflexivity.
      - rewrite (Hempty g Hg), combine_nil. reflexivity. }
    apply H. auto. }
  assert (load_data sort_values rows = prepare rows) as Hload
    by (rewrite load_data_assign, Hnil; reflexivity).
  split; [exact Hload|].
  intros i r Hin. rewrite Hload in Hin. apply In_prepare in Hin.
  destruct Hin as (r0 & _ & _ & ->). reflexivity.
Qed.

End PartnerFacts.

Lemma profit_needs_partner_witness :
  Dashboard.profit (Dashboard.sample_row "SLD" 40 1 0) = 0%float
  \/ exists j r',
       In (j, r')
         (Dashboard.load_data Dashboard.stable_sort_values
            Dashboard.sample_ledger)
       /\ j <> 4%nat
       /\ Dashboard.key_of (j, r')
          = Dashboard.key_of (4%nat, Dashboard.sample_row "SLD" 40 1 0)
       /\ Dashboard.key_complete (4%nat, Dashboard.sample_row "SLD" 40 1 0)
          = true
       /\ Dashboard.profit r'
          = Dashboard.profit (Dashboard.sample_row "SLD" 40 1 0)
       /\ ((Dashboard.entry_action (Dashboard.sample_row "SLD" 40 1 0)
            = Some "BOT"
            /\ Dashboard.entry_action r' = Some "SLD"
            /\ Dashboard.profit (Dashboard.sample_row "SLD" 40 1 0)
               = ((Dashboard.entry_price (Dashboard.sample_row "SLD" 40 1 0)
                   - Dashboard.entry_price r') * 100)%float)
           \/ (Dashboard.entry_action (Dashboard.sample_row "SLD" 40 1 0)
               = Some "SLD"
               /\ Dashboard.entry_action r' = Some "BOT"
               /\ Dashboard.profit (Dashboard.sample_row "SLD" 40 1 0)
                  = ((Dashboard.entry_price r'
                      - Dashboard.entry_price
                          (Dashboard.sample_row "SLD" 40 1 0)) * 100)%float)).
Proof.
  apply (profit_needs_partner Dashboard.stable_sort_values
           stable_sort_values_sorts Dashboard.sample_ledger 4
           (Dashboard.sample_row "SLD" 40 1 0)).
  vm_compute. do 4 right. left. reflexivity.
Defined.

Lemma one_sided_ledger_profit_zero_witness :
  Dashboard.load_data Dashboard.stable_sort_values
    [Dashboard.sample_row "BOT" 10 3.5 250]
  = [(0%nat, Dashboard.sample_row "BOT" 10 3.5 0)].
Proof.
  refine (proj1 (one_sided_ledger_profit_zero Dashboard.stable_sort_values
                   stable_sort_values_sorts
                   [Dashboard.sample_row "BOT" 10 3.5 250]
                   "SLD" (or_intror eq_refl) _)).
  intros r0 [<-|[]]. discriminate.
Defined.

(** ** Rows of equal entry time *)

Lemma sorted_perm_unique {X : Type} (leb : X -> X -> bool) (l1 l2 : list X) :
  (forall a b, In a l1 -> In b l1 ->
     leb a b = true -> leb b a = true -> a = b) ->
  Permutation l1 l2 ->
  StronglySorted (fun a b => leb a b = true) l1 ->
  StronglySorted (fun a b => leb a b = true) l2 ->
  l1 = l2.
Proof.
  revert l2. induction l1 as [|a l1 IH]; intros l2 Hanti Hp Hs1 Hs2.
  - apply Permutation_nil in Hp. symmetry. exact Hp.
  - destruct l2 as [|b l2].
    + apply Permutation_sym, Permutation_nil in Hp. discriminate.
    + apply StronglySorted_inv in Hs1, Hs2.
      destruct Hs1 as [Hs1 Ha], Hs2 as [Hs2 Hb].
      rewrite Forall_forall in Ha, Hb.
      assert (a = b) as Heq.
      { assert (In a (b :: l2)) as Hina
          by (apply (Permutation_in _ Hp); left; reflexivity).
        assert (In b (a :: l1)) as Hinb
          by (apply (Permutation_in _ (Permutation_sym Hp)); left;
              reflexivity).
        destruct Hina as [Hina|Hina]; [symmetry; exact Hina|].
        destruct Hinb as [Hinb|Hinb]; [exact Hinb|].
        apply Hanti.
        - left. reflexivity.
        - right. exact Hinb.
        - apply Ha. exact Hinb.
        - apply Hb. exact Hina. }
      subst b. f_equal. apply Permutation_cons_inv in Hp.
      apply IH; try assumption.
      intros x y Hx Hy. apply Hanti; right; assumption.
Qed.

(** The reversing sort is a sort by entry time as well. *)
Lemma reversing_sort_values_sorts :
  Dashboard.sorts_by_entry_time Dashboard.reversing_sort_values.
Proof.
  intros group. unfold Dashboard.reversing_sort_values. split.
  - apply perm_trans with (rev group); [apply stable_sort_perm|].
    apply Permutation_sym, Permutation_rev.
  - apply stable_sort_sorted.
    + apply entry_time_leb_total.
    + apply entry_time_leb_trans.
Qed.

Section TieFacts.

Import Dashboard.

Variables sort1 sort2 : DataFrame -> DataFrame.
Hypothesis sort1_spec : sorts_by_entry_time sort1.
Hypothesis sort2_spec : sorts_by_entry_time sort2.

Lemma tie_free_sorts_agree (df g : DataFrame) :
  NoDup (map fst df) -> (forall ir, In ir g -> In ir df) ->
  tie_free g = true -> sort1 g = sort2 g.
Proof.
  intros Hn Hsub Hfree.
  destruct (sort1_spec g) as [Hp1 Hs1], (sort2_spec g) as [Hp2 Hs2].
  apply (sorted_perm_unique entry_time_leb); try assumption.
  - intros a b Ha Hb Hab Hba.
    apply (Permutation_in _ Hp1) in Ha, Hb.
    unfold tie_free in Hfree. rewrite forallb_forall in Hfree.
    specialize (Hfree a Ha). rewrite forallb_forall in Hfree.
    specialize (Hfree b Hb). unfold ties in Hfree.
    rewrite Hab, Hba in Hfree. simpl in Hfree.
    apply Nat.eqb_eq in Hfree.
    apply Hsub in Ha, Hb. destruct a as [i x], b as [j y].
    simpl in Hfree. subst j. f_equal.
    apply (NoDup_fst_unique df i x y Hn Ha Hb).
  - apply perm_trans with g; [exact Hp1|apply Permutation_sym, Hp2].
Qed.

Lemma pair_groups_agree (groups : list (Key * DataFrame)) (df : DataFrame) :
  (forall g, In g groups -> sort1 (snd g) = sort2 (snd g)) ->
  pair_groups sort1 groups df = pair_groups sort2 groups df.
Proof.
  unfold pair_groups. revert df.
  induction groups as [|g groups IH]; intros df H; simpl; [reflexivity|].
  unfold pair_group at 2 4. unfold bot_rows, sld_rows.
  rewrite (H g (or_introl eq_refl)).
  apply IH. intros g' Hg'. apply H. right. exact Hg'.
Qed.

(** X17. When in no group two rows have the same entry time (or both none),
    the sort has no choice: every sort by entry_time gives the same frame,
    so the pairs and the profits are the ones of the stable sort. *)
Theorem distinct_times_fix_the_frame (rows : list LedgerRow) :
  forallb (fun g => tie_free (snd g)) (groupby (prepare rows)) = true ->
  load_data sort1 rows = load_data sort2 rows.
Proof.
  intros Hfree. unfold load_data. apply pair_groups_agree.
  intros [k g] Hg. simpl.
  rewrite forallb_forall in Hfree.
  apply (tie_free_sorts_agree (prepare rows)).
  - apply prepare_NoDup.
  - intros ir Hir.
    apply (In_group_frame (prepare rows) (groupby (prepare rows)) k g ir
             (Permutation_refl _) Hg Hir).
  - apply (Hfree (k, g) Hg).
Qed.

End TieFacts.

Lemma distinct_times_fix_the_frame_witness :
  Dashboard.load_data Dashboard.stable_sort_values Dashboard.sample_ledger
  = Dashboard.load_data Dashboard.reversing_sort_values
      Dashboard.sample_ledger.
Proof.
  apply (distinct_times_fix_the_frame Dashboard.stable_sort_values
           Dashboard.reversing_sort_values stable_sort_values_sorts
           reversing_sort_values_sorts Dashboard.sample_ledger).
  reflexivity.
Defined.

(** With equal entry times the pairs depend on the sort.  In the ledger
    BOT 3.00 at 10, BOT 5.00 at 10, SLD 1.00 at 20, the stable sort pairs
    row 0 with row 2, the reversing sort row 1 with row 2. *)
Lemma tied_rows_pair_by_the_sort :
  forallb (fun g => Dashboard.tie_free (snd g))
    (Dashboard.groupby (Dashboard.prepare Dashboard.tied_ledger)) = false
  /\ map (fun ir => (fst ir, Dashboard.profit (snd ir)))
       (Dashboard.load_data Dashboard.stable_sort_values
          Dashboard.tied_ledger)
     = [ (0%nat, 200%float); (1%nat, 0%float); (2%nat, 200%float) ]
  /\ map (fun ir => (fst ir, Dashboard.profit (snd ir)))
       (Dashboard.load_data Dashboard.reversing_sort_values
          Dashboard.tied_ledger)
     = [ (0%nat, 0%float); (1%nat, 400%float); (2%nat, 400%float) ].
Proof. repeat split. Qed.
